(** * aa-product-validator: the Adobe Analytics [s.products] parser

    A shallow embedding of the validation logic of
    [src/components/ProductValidator.tsx] ([processEventAttributes],
    [normalizeAttributes], [parseProduct], [validateProductString] and the
    whole-string flag computed by the component), followed by the
    properties of the parser that the specification states.

    JavaScript strings are sequences of UTF-16 code units; a value that
    may be [undefined] is an [option]; a method call on [undefined]
    throws, so the functions of the source live in an error monad, with
    the console as state. *)

From Stdlib Require Import String Ascii List NArith ZArith Bool Lia.
From ExtLib Require Import Structures.Monad Structures.MonadState Structures.MonadExc.
From ExtLib Require Import Data.Monads.StateMonad Data.Monads.EitherMonad.
Import ListNotations.
Import MonadNotation.
Local Open Scope monad_scope.
Local Open Scope N_scope.

#[local] Existing Instance Monad_stateT.

(** ** Strings *)

Module JsString.

(** A string is the list of its UTF-16 code units. *)
Definition jsstring := list N.

(** The code units of an ASCII literal. *)
Definition js (s : string) : jsstring :=
  map N_of_ascii (list_ascii_of_string s).

(** The code unit of a one-character literal such as [","]. *)
Definition unit_of (s : string) : N :=
  match s with
  | String a _ => N_of_ascii a
  | EmptyString => 0
  end.

(** [WhiteSpace] and [LineTerminator] of ECMA-262: what
    [String.prototype.trim] and the numeric conversions strip. *)
Definition is_ws (c : N) : bool :=
  ((9 <=? c) && (c <=? 13))          (* TAB LF VT FF CR *)
  || (c =? 32) || (c =? 160) || (c =? 5760)
  || ((8192 <=? c) && (c <=? 8202))  (* U+2000 .. U+200A *)
  || (c =? 8232) || (c =? 8233)      (* LS, PS *)
  || (c =? 8239) || (c =? 8287) || (c =? 12288)
  || (c =? 65279).                   (* ZWNBSP *)

Fixpoint trimStart (s : jsstring) : jsstring :=
  match s with
  | c :: r => if is_ws c then trimStart r else s
  | [] => []
  end.

Definition trimEnd (s : jsstring) : jsstring := rev (trimStart (rev s)).

(** [s.trim()] *)
Definition trim (s : jsstring) : jsstring := trimEnd (trimStart s).

(** [s.includes(sep)] for a one-unit [sep]. *)
Definition includes (sep : N) (s : jsstring) : bool := existsb (N.eqb sep) s.

(** [s.split(sep)] for a one-unit [sep]: never empty, one more piece
    than there are separators. *)
Fixpoint split (sep : N) (s : jsstring) : list jsstring :=
  match s with
  | [] => [[]]
  | c :: r =>
      if c =? sep then [] :: split sep r
      else match split sep r with
           | piece :: pieces => (c :: piece) :: pieces
           | [] => [[c]]
           end
  end.

(** [s.replace(pat, by)] with string arguments of one unit each: only
    the first occurrence is replaced. *)
Fixpoint replace (pat by_ : N) (s : jsstring) : jsstring :=
  match s with
  | [] => []
  | c :: r => if c =? pat then by_ :: r else c :: replace pat by_ r
  end.

(** Truthiness of a value that is a string or [undefined]. *)
Definition truthy (v : option jsstring) : bool :=
  match v with
  | Some (_ :: _) => true
  | _ => false
  end.

(** [a || b] on such values. *)
Definition or_else (a : option jsstring) (b : jsstring) : jsstring :=
  match a with
  | Some (c :: r) => c :: r
  | _ => b
  end.

End JsString.
Import JsString.

(** ** Numbers *)

Module JsNumber.

(** A Number value, kept as the decimal it was read from: [Dec neg m e]
    stands for the IEEE-754 double nearest to [m * 10^e] (ties to
    even), negated when [neg]; so [Dec true 0 0] is [-0]. Only the
    tests the program performs on numbers are interpreted, and they
    are decided exactly on the decimal. The conversion is taken to be
    exact, as the engines in use do it; ECMA-262 would also allow
    rounding the decimal after its 20th significant digit first. *)
Inductive jsnum : Type :=
| NaN
| Infinity (neg : bool)
| Dec (neg : bool) (m : N) (e : Z).

(** Whether the double nearest to [m * 10^e] is zero: that is
    [m * 10^e <= 2^-1075], half of the least positive double (the tie
    goes to the even neighbour, zero). *)
Definition rounds_to_zero (m : N) (e : Z) : bool :=
  if (0 <=? e)%Z then m =? 0
  else (Z.of_N m * 2 ^ 1075 <=? 10 ^ (- e))%Z.

Definition isNaN (x : jsnum) : bool :=
  match x with
  | NaN => true
  | _ => false
  end.

(** [x >= 0]: false on [NaN], true on [-0]. *)
Definition ge_zero (x : jsnum) : bool :=
  match x with
  | NaN => false
  | Infinity neg => negb neg
  | Dec neg m e => negb neg || rounds_to_zero m e
  end.

(** Truthiness: [NaN], [+0] and [-0] are falsy. *)
Definition truthy_num (x : jsnum) : bool :=
  match x with
  | NaN => false
  | Infinity _ => true
  | Dec _ m e => negb (rounds_to_zero m e)
  end.

Definition zero : jsnum := Dec false 0 0.

(** [x || 0] *)
Definition or_zero (x : jsnum) : jsnum := if truthy_num x then x else zero.

Definition negate (neg : bool) (x : jsnum) : jsnum :=
  match x with
  | NaN => NaN
  | Infinity n => Infinity (xorb neg n)
  | Dec n m e => Dec (xorb neg n) m e
  end.

(** *** Scanning numeric literals *)

(** [0] to [9] *)
Definition is_digit (c : N) : bool := (48 <=? c) && (c <=? 57).

(** The longest run of decimal digits at the front, and what follows. *)
Fixpoint span_digits (s : jsstring) : jsstring * jsstring :=
  match s with
  | c :: r =>
      if is_digit c
      then let (ds, rest) := span_digits r in (c :: ds, rest)
      else ([], s)
  | [] => ([], [])
  end.

Definition digits_value (ds : jsstring) : N :=
  fold_left (fun acc c => acc * 10 + (c - 48)) ds 0.

Definition is_nil {A : Type} (l : list A) : bool :=
  match l with
  | [] => true
  | _ => false
  end.

(** [ExponentPart]: [e] or [E], an optional sign, one or more digits.
    [None] when the text does not start with a complete one. *)
Definition scan_exponent (s : jsstring) : option (Z * jsstring) :=
  match s with
  | c :: r =>
      if (c =? 101) || (c =? 69) then          (* e, E *)
        let '(neg, r') :=
          match r with
          | sg :: t => if sg =? 43 then (false, t)         (* + *)
                       else if sg =? 45 then (true, t)     (* - *)
                       else (false, r)
          | [] => (false, r)
          end in
        let (ds, rest) := span_digits r' in
        if is_nil ds then None
        else let v := Z.of_N (digits_value ds) in
             Some (if neg then (- v)%Z else v, rest)
      else None
  | [] => None
  end.

(** Mantissa digits and scale read so far, then an optional exponent. *)
Definition with_exponent (ds : jsstring) (scale : Z) (rest : jsstring)
  : jsnum * jsstring :=
  match scan_exponent rest with
  | Some (x, rest') => (Dec false (digits_value ds) (scale + x), rest')
  | None => (Dec false (digits_value ds) scale, rest)
  end.

Fixpoint strip_prefix (p s : jsstring) : option jsstring :=
  match p, s with
  | [], _ => Some s
  | a :: p', b :: s' => if a =? b then strip_prefix p' s' else None
  | _ :: _, [] => None
  end.

(** The longest prefix that is a [StrUnsignedDecimalLiteral], as its
    value and the text left over. *)
Definition scan_unsigned (s : jsstring) : option (jsnum * jsstring) :=
  match strip_prefix (js "Infinity") s with
  | Some rest => Some (Infinity false, rest)
  | None =>
      let (ip, r1) := span_digits s in
      let after_point :=
        match r1 with
        | c :: r2 => if c =? 46 then Some r2 else None   (* . *)
        | [] => None
        end in
      match after_point with
      | Some r2 =>
          let (fp, r3) := span_digits r2 in
          if is_nil ip && is_nil fp then None
          else Some (with_exponent (ip ++ fp) (- Z.of_nat (length fp)) r3)
      | None =>
          if is_nil ip then None
          else Some (with_exponent ip 0 r1)
      end
  end.

(** The longest prefix that is a [StrDecimalLiteral] (optional sign). *)
Definition scan_decimal (s : jsstring) : option (jsnum * jsstring) :=
  match s with
  | c :: r =>
      if c =? 43 then scan_unsigned r                  (* + *)
      else if c =? 45 then                             (* - *)
        match scan_unsigned r with
        | Some (v, rest) => Some (negate true v, rest)
        | None => None
        end
      else scan_unsigned s
  | [] => None
  end.

(** [parseFloat(s)]: leading white space is skipped, the longest
    decimal literal is read, whatever follows is ignored. *)
Definition parseFloat (s : jsstring) : jsnum :=
  match scan_decimal (trimStart s) with
  | Some (v, _) => v
  | None => NaN
  end.

(** Digits of [0x], [0o] and [0b] literals. *)
Definition digit_in (radix c : N) : option N :=
  let v :=
    if (48 <=? c) && (c <=? 57) then Some (c - 48)         (* 0 .. 9 *)
    else if (97 <=? c) && (c <=? 102) then Some (c - 87)   (* a .. f *)
    else if (65 <=? c) && (c <=? 70) then Some (c - 55)    (* A .. F *)
    else None in
  match v with
  | Some d => if d <? radix then Some d else None
  | None => None
  end.

Fixpoint radix_value (radix : N) (acc : N) (s : jsstring) : option N :=
  match s with
  | [] => Some acc
  | c :: r =>
      match digit_in radix c with
      | Some d => radix_value radix (acc * radix + d) r
      | None => None
      end
  end.

(** [NonDecimalIntegerLiteral], the whole text. *)
Definition non_decimal (s : jsstring) : option N :=
  match s with
  | 48 :: p :: d :: r =>
      if (p =? 120) || (p =? 88) then radix_value 16 0 (d :: r)       (* 0x *)
      else if (p =? 111) || (p =? 79) then radix_value 8 0 (d :: r)   (* 0o *)
      else if (p =? 98) || (p =? 66) then radix_value 2 0 (d :: r)    (* 0b *)
      else None
  | _ => None
  end.

(** [StringToNumber]: white space around is dropped; the empty text is
    [+0]; otherwise the whole text must be one literal. *)
Definition StringToNumber (s : jsstring) : jsnum :=
  let t := trim s in
  if is_nil t then zero
  else match scan_decimal t with
       | Some (v, []) => v
       | _ => match non_decimal t with
              | Some n => Dec false n 0
              | None => NaN
              end
       end.

(** [Number(v)] for a string or [undefined]. *)
Definition Number (v : option jsstring) : jsnum :=
  match v with
  | Some s => StringToNumber s
  | None => NaN
  end.

End JsNumber.
Import JsNumber.

(** ** Effects: exceptions and the console *)

Inductive exn : Type :=
| TypeError.

(** The two messages of [validateProductString], each with the
    one-based product number it interpolates. *)
Inductive warning : Type :=
| CascadingAt (productNo : nat)
| NumericCategory (productNo : nat).

Definition console := list warning.

Definition JS : Type -> Type := stateT console (sum exn).

(** [recv.m(...)]: a [TypeError] when the receiver is [undefined]. *)
Definition invoke {A B : Type} (recv : option A) (m : A -> B) : JS B :=
  match recv with
  | Some a => ret (m a)
  | None => raise TypeError
  end.

(** [console.warn(w)] *)
Definition console_warn (w : warning) : JS unit :=
  modify (fun out => out ++ [w]) ;; ret tt.

Fixpoint mapM {A B : Type} (f : A -> JS B) (l : list A) : JS (list B) :=
  match l with
  | [] => ret []
  | a :: r => b <- f a ;; bs <- mapM f r ;; ret (b :: bs)
  end.

(** Running a computation from a given console. *)
Definition run {A : Type} (c : JS A) (out : console) : exn + (A * console) :=
  runStateT c out.

(** ** Attributes *)

(** The object [{ [key]: value }]: one property, whose value may be
    [undefined]. *)
Record Attribute : Type := mkAttribute {
  attr_key : jsstring;
  attr_value : option jsstring
}.

(** The property name a destructured array slot turns into. *)
Definition property_key (k : option jsstring) : jsstring :=
  match k with
  | Some s => s
  | None => js "undefined"
  end.

(** The callback of [processEventAttributes]:
    [const [key, value] = event.split('='); return { [key]: value }]. *)
Definition attribute_of (event : jsstring) : Attribute :=
  let parts := split (unit_of "=") event in
  let key := nth_error parts 0 in
  let value := nth_error parts 1 in
  mkAttribute (property_key key) value.

Definition processEventAttributes (eventAttribute : option jsstring)
  : JS (option (list Attribute)) :=
  let not_string := match eventAttribute with None => true | Some _ => false end in
  let has_bar := option_map (includes (unit_of "|")) eventAttribute in
  if not_string || negb (match has_bar with Some b => b | None => false end)
  then ret None
  else
    pieces <- invoke eventAttribute (split (unit_of "|")) ;;
    ret (Some (map attribute_of pieces)).

Definition normalizeAttributes (raw : option jsstring) : JS (list Attribute) :=
  result <- (if truthy raw then processEventAttributes raw else ret (Some [])) ;;
  ret (match result with Some r => r | None => [] end).

(** ** Products *)

Record Product : Type := mkProduct {
  category : jsstring;
  item : jsstring;
  quantity : jsnum;
  price : jsnum;
  events : list Attribute;
  evars : list Attribute;
  isValid : bool
}.

Definition parseProduct (product : jsstring) : JS Product :=
  let parts := split (unit_of ";") product in
  let category_ := nth_error parts 0 in
  let item_ := nth_error parts 1 in
  let quantity_ := nth_error parts 2 in
  let price_ := nth_error parts 3 in
  let rawEvents := nth_error parts 4 in
  let rawEvars := nth_error parts 5 in
  let hasMinimumParts := (4 <=? length parts)%nat in
  (* item && item.trim() *)
  trimmed <- (if truthy item_
              then t <- invoke item_ trim ;; ret (Some t)
              else ret item_) ;;
  let hasValidItem := truthy trimmed in
  (* price?.replace(',', '.') || '0' *)
  let priceText :=
    or_else (option_map (replace (unit_of ",") (unit_of ".")) price_) (js "0") in
  let parsedPrice := parseFloat priceText in
  let isValidPrice := negb (isNaN parsedPrice) && ge_zero parsedPrice in
  events_ <- normalizeAttributes rawEvents ;;
  evars_ <- normalizeAttributes rawEvars ;;
  ret {| category := or_else category_ [];
         item := or_else item_ [];
         quantity := or_zero (Number quantity_);
         price := parsedPrice;
         events := events_;
         evars := evars_;
         isValid := hasMinimumParts && hasValidItem && isValidPrice |}.

(** *** The two category patterns *)

(** [/^\d+[.,]\d*$/.test(s)]: the digit run is maximal because the next
    unit has to be [.] or [,]. *)
Definition test_fraction (s : jsstring) : bool :=
  let (ds, rest) := span_digits s in
  negb (is_nil ds)
  && match rest with
     | c :: fs => ((c =? 46) || (c =? 44)) && forallb is_digit fs   (* . , *)
     | [] => false
     end.

(** [/^\d+$/.test(s)] *)
Definition test_digits (s : jsstring) : bool :=
  negb (is_nil s) && forallb is_digit s.

(** *** The whole string *)

(** The body of the first [forEach] callback for one product; the
    captured variable [hasCascadingError] goes in and comes out. *)
Definition detect (product : Product) (index : nat) (hasCascadingError : bool)
  : JS bool :=
  h <- (if truthy (Some (category product))
           && test_fraction (trim (category product))
        then console_warn (CascadingAt (index + 1)) ;; ret true
        else ret hasCascadingError) ;;
  (if truthy (Some (category product))
      && test_digits (trim (category product))
   then console_warn (NumericCategory (index + 1)) ;; ret true
   else ret h).

Fixpoint forEach_detect (products : list Product) (index : nat)
  (hasCascadingError : bool) : JS bool :=
  match products with
  | [] => ret hasCascadingError
  | product :: rest =>
      h <- detect product index hasCascadingError ;;
      forEach_detect rest (S index) h
  end.

(** [if (product.isValid) product.isValid = false] *)
Definition invalidate (product : Product) : Product :=
  if isValid product
  then {| category := category product;
          item := item product;
          quantity := quantity product;
          price := price product;
          events := events product;
          evars := evars product;
          isValid := false |}
  else product.

(** The validity-propagation pass: the objects of the array are
    updated in place, each one is a distinct object. *)
Definition cascade (hasCascadingError : bool) (products : list Product)
  : list Product :=
  if hasCascadingError then map invalidate products else products.

(** The argument has type string, so [typeof s !== 'string'] is false. *)
Definition validateProductString (s : jsstring) : JS (list Product) :=
  if negb (truthy (Some (trim s))) then ret []
  else
    let rawProducts := split (unit_of ",") s in
    products <- mapM parseProduct rawProducts ;;
    hasCascadingError <- forEach_detect products 0 false ;;
    ret (cascade hasCascadingError products).

(** [!validationResult.some(p => !p.isValid)], the flag the component
    shows for the whole string. *)
Definition isStringValid (validationResult : list Product) : bool :=
  negb (existsb (fun p => negb (isValid p)) validationResult).

(** ** The component: what it shows for a validation result *)

(** [/^\d+[.,]?\d*$/.test(s)], the pattern of the notice under the
    status line. *)
Definition test_notice (s : jsstring) : bool :=
  let (ds, rest) := span_digits s in
  negb (is_nil ds)
  && match rest with
     | c :: fs => ((c =? 46) || (c =? 44)) && forallb is_digit fs   (* . , *)
     | [] => true
     end.

(** [/^\d+[.,]\d+/.test(s)], the pattern of the badge and of the
    category cell: there is no [$], a match at the front is enough. *)
Definition test_badge (s : jsstring) : bool :=
  let (ds, rest) := span_digits s in
  negb (is_nil ds)
  && match rest with
     | c :: d :: _ => ((c =? 46) || (c =? 44)) && is_digit d       (* . , *)
     | _ => false
     end.

(** The condition of the "Cascading Parse Error Detected" box:
    [!isStringValid && validation.some(p => p.category &&
    /^\d+[.,]?\d*$/.test(p.category.trim()))]. The effect of the
    component sets both states from one call of
    [validateProductString]. *)
Definition showsCascadeNotice (stringValid : bool) (validation : list Product)
  : bool :=
  negb stringValid
  && existsb (fun p => truthy (Some (category p))
                       && test_notice (trim (category p)))
             validation.

(** [validation.length > 0], the condition of the "Parsed Products"
    section. *)
Definition showsResults (validation : list Product) : bool :=
  (0 <? length validation)%nat.

(** [product.category && /^\d+[.,]\d+/.test(product.category)], the
    condition of the "Parsing Error" badge; the category is not
    trimmed here. *)
Definition showsParsingError (product : Product) : bool :=
  truthy (Some (category product)) && test_badge (category product).

(** [product.category || 'N/A'] *)
Definition categoryCell (product : Product) : jsstring :=
  or_else (Some (category product)) (js "N/A").

(** [product.item || 'Missing (Required)'] *)
Definition itemCell (product : Product) : jsstring :=
  or_else (Some (item product)) (js "Missing (Required)").


(** * Vocabulary of the properties *)

(** ** Results in closed form

    The functions of the source are computations; these are the values
    they are proved to return ([normalizeAttributes_silent],
    [parseProduct_silent], [validateProductString_run]). *)

(** A computation that returns [a] and leaves the console alone. *)
Definition silent {A : Type} (c : JS A) (a : A) : Prop :=
  forall out, run c out = inr (a, out).

(** What [normalizeAttributes] returns. *)
Definition attributes (raw : option jsstring) : list Attribute :=
  match raw with
  | Some r =>
      if includes (unit_of "|") r
      then map attribute_of (split (unit_of "|") r)
      else []
  | None => []
  end.

(** What [parseProduct] returns. *)
Definition parsed (product : jsstring) : Product :=
  let parts := split (unit_of ";") product in
  let parsedPrice :=
    parseFloat
      (or_else (option_map (replace (unit_of ",") (unit_of ".")) (nth_error parts 3))
               (js "0")) in
  {| category := or_else (nth_error parts 0) [];
     item := or_else (nth_error parts 1) [];
     quantity := or_zero (Number (nth_error parts 2));
     price := parsedPrice;
     events := attributes (nth_error parts 4);
     evars := attributes (nth_error parts 5);
     isValid := (4 <=? length parts)%nat
                && truthy (option_map trim (nth_error parts 1))
                && (negb (isNaN parsedPrice) && ge_zero parsedPrice) |}.

(** A product whose category the first loop reports. *)
Definition symptom (product : Product) : bool :=
  truthy (Some (category product))
  && (test_fraction (trim (category product))
      || test_digits (trim (category product))).

(** What [validateProductString] returns. *)
Definition validated (s : jsstring) : list Product :=
  if is_nil (trim s) then []
  else
    let products := map parsed (split (unit_of ",") s) in
    cascade (existsb symptom products) products.

(** ** Cutting at the first separator *)

(** The text in front of the first separator (all of it when there is
    none). *)
Fixpoint before_first (sep : N) (s : jsstring) : jsstring :=
  match s with
  | [] => []
  | c :: r => if c =? sep then [] else c :: before_first sep r
  end.

(** The text behind the first separator, if there is one. *)
Fixpoint after_first (sep : N) (s : jsstring) : option jsstring :=
  match s with
  | [] => None
  | c :: r => if c =? sep then Some r else after_first sep r
  end.

(** An entry cut at its first [=]: the key in front, the value behind
    (absent without [=]). *)
Definition entry_at_first_eq (piece : jsstring) : Attribute :=
  mkAttribute (before_first (unit_of "=") piece) (after_first (unit_of "=") piece).

(** What [attribute_of] builds: the entry is cut at every [=], the key
    is the first part and the value the second one, that is the text
    between the first [=] and the next. *)
Definition entry_of_two_parts (piece : jsstring) : Attribute :=
  mkAttribute (before_first (unit_of "=") piece)
              (option_map (before_first (unit_of "="))
                          (after_first (unit_of "=") piece)).

(** ** Digits and the two category patterns *)

(** The code units of [0] to [9], what [\d] matches. *)
Definition Digit (c : N) : Prop := 48 <= c /\ c <= 57.

(** What follows a maximal digit run does not start with a digit. *)
Definition no_digit_ahead (s : jsstring) : Prop :=
  match s with
  | c :: _ => ~ Digit c
  | [] => True
  end.

(** One or more digits, then [.] or [,], then zero or more digits. *)
Definition FractionPattern (t : jsstring) : Prop :=
  exists ds c fs,
    t = ds ++ c :: fs /\ ds <> [] /\ Forall Digit ds
    /\ (c = unit_of "." \/ c = unit_of ",") /\ Forall Digit fs.

(** One or more digits and nothing else. *)
Definition DigitsPattern (t : jsstring) : Prop :=
  t <> [] /\ Forall Digit t.

(** ** Validity *)

(** The pass leaves every field but [isValid] alone, and an invalid
    product stays invalid. *)
Definition demoted_only (before after : Product) : Prop :=
  category after = category before
  /\ item after = item before
  /\ quantity after = quantity before
  /\ price after = price before
  /\ events after = events before
  /\ evars after = evars before
  /\ (isValid before = false -> isValid after = false).

(** A number that is not below zero: not [NaN], and either without a
    minus sign or a double that is zero ([-0 >= 0] holds). *)
Definition non_negative_number (x : jsnum) : Prop :=
  match x with
  | NaN => False
  | Infinity neg => neg = false
  | Dec neg m e => neg = false \/ rounds_to_zero m e = true
  end.

(** The text handed to [parseFloat]: the price field with its first
    [,] replaced by [.], and ["0"] when the field is missing or empty. *)
Definition price_text (field : option jsstring) : jsstring :=
  match field with
  | Some (c :: r) => replace (unit_of ",") (unit_of ".") (c :: r)
  | _ => js "0"
  end.

(** ** Decimal literals *)

Definition exponent_indicator (c : N) : Prop :=
  c = unit_of "e" \/ c = unit_of "E".

(** [ExponentPart] of the [StrDecimalLiteral] grammar, with its value. *)
Inductive ExponentPart : jsstring -> Z -> Prop :=
| Exp_plain (ind : N) (ds : jsstring) :
    exponent_indicator ind -> DigitsPattern ds ->
    ExponentPart (ind :: ds) (Z.of_N (digits_value ds))
| Exp_plus (ind : N) (ds : jsstring) :
    exponent_indicator ind -> DigitsPattern ds ->
    ExponentPart (ind :: unit_of "+" :: ds) (Z.of_N (digits_value ds))
| Exp_minus (ind : N) (ds : jsstring) :
    exponent_indicator ind -> DigitsPattern ds ->
    ExponentPart (ind :: unit_of "-" :: ds) (- Z.of_N (digits_value ds)).

Inductive OptionalExponent : jsstring -> Z -> Prop :=
| Exp_absent : OptionalExponent [] 0
| Exp_present (x : jsstring) (e : Z) : ExponentPart x e -> OptionalExponent x e.

(** The digit forms of [StrUnsignedDecimalLiteral], with the number
    they denote: [1.5e3], [1.], [.5], [15], ... *)
Inductive UnsignedDecimal : jsstring -> jsnum -> Prop :=
| UD_point (ip fp x : jsstring) (e : Z) :
    DigitsPattern ip -> Forall Digit fp -> OptionalExponent x e ->
    UnsignedDecimal (ip ++ unit_of "." :: fp ++ x)
      (Dec false (digits_value (ip ++ fp)) (- Z.of_nat (length fp) + e))
| UD_fraction (fp x : jsstring) (e : Z) :
    DigitsPattern fp -> OptionalExponent x e ->
    UnsignedDecimal (unit_of "." :: fp ++ x)
      (Dec false (digits_value fp) (- Z.of_nat (length fp) + e))
| UD_integer (ip x : jsstring) (e : Z) :
    DigitsPattern ip -> OptionalExponent x e ->
    UnsignedDecimal (ip ++ x) (Dec false (digits_value ip) e).

(** Trailing text without a single digit. *)
Definition digit_free (g : jsstring) : Prop := Forall (fun c => ~ Digit c) g.

(** A literal starts with a digit or with the point. *)
Definition literal_start (s : jsstring) : Prop :=
  match s with
  | c :: _ => Digit c \/ c = unit_of "."
  | [] => False
  end.

(** Text without a comma. *)
Definition comma_free (s : jsstring) : Prop := Forall (fun c => c <> unit_of ",") s.

(** ** The console *)

(** What the first loop writes for the product at [index]. *)
Definition warnings_for (product : Product) (index : nat) : list warning :=
  (if truthy (Some (category product)) && test_fraction (trim (category product))
   then [CascadingAt (index + 1)] else [])
  ++ (if truthy (Some (category product)) && test_digits (trim (category product))
      then [NumericCategory (index + 1)] else []).

Fixpoint warnings_from (products : list Product) (index : nat) : list warning :=
  match products with
  | [] => []
  | product :: rest => warnings_for product index ++ warnings_from rest (S index)
  end.

Definition productNo_of (w : warning) : nat :=
  match w with
  | CascadingAt n => n
  | NumericCategory n => n
  end.

(** ** Delimiters *)

(** Text that holds none of the given code units. *)
Definition free_of (seps : list N) (s : jsstring) : Prop :=
  Forall (fun c => ~ In c seps) s.

(** The same for a value that may be [undefined]. *)
Definition value_free_of (seps : list N) (v : option jsstring) : Prop :=
  match v with
  | Some s => free_of seps s
  | None => True
  end.

(** Everything of a product but its validity flag. *)
Definition fields_of (p : Product) :=
  (category p, item p, quantity p, price p, events p, evars p).

(** A segment that parses to a valid product and shows no symptom. *)
Definition sound_segment (segment : jsstring) : bool :=
  isValid (parsed segment) && negb (symptom (parsed segment)).

(** * Properties *)

(** ** Running computations *)

Section Running.

Context {A B : Type}.

Lemma run_ret (a : A) (out : console) : run (ret a) out = inr (a, out).
Proof. reflexivity. Qed.

Lemma run_bind (c : JS A) (f : A -> JS B) (out : console) :
  run (bind c f) out =
  match run c out with
  | inl e => inl e
  | inr (a, out') => run (f a) out'
  end.
Proof.
  unfold run. simpl. destruct (runStateT c out) as [e | [a out']]; reflexivity.
Qed.

End Running.

(** The error path is live: a method call on [undefined] throws. *)
Example invoke_undefined_throws :
  run (invoke (@None jsstring) trim) [] = inl TypeError.
Proof. reflexivity. Qed.

Lemma run_warn (w : warning) (out : console) :
  run (console_warn w) out = inr (tt, out ++ [w]).
Proof. reflexivity. Qed.

Lemma mapM_silent {A B : Type} (f : A -> JS B) (g : A -> B) :
  (forall a, silent (f a) (g a)) ->
  forall l, silent (mapM f l) (map g l).
Proof.
  intros Hf l. induction l as [| a r IH]; intros out; cbn [mapM map].
  - reflexivity.
  - rewrite run_bind, Hf, run_bind, IH. reflexivity.
Qed.

(** ** What the normalizer returns *)

Lemma normalizeAttributes_silent (raw : option jsstring) :
  silent (normalizeAttributes raw) (attributes raw).
Proof.
  intros out. unfold normalizeAttributes. rewrite run_bind.
  destruct raw as [[| c r] |]; try reflexivity.
  change (truthy (Some (c :: r))) with true. cbv iota.
  unfold processEventAttributes, attributes. cbn [option_map orb].
  destruct (includes (unit_of "|") (c :: r)); reflexivity.
Qed.

(** ** What the segment parser returns *)

Lemma guarded_trim_silent (v : option jsstring) :
  silent (if truthy v then t <- invoke v trim ;; ret (Some t) else ret v)
         (if truthy v then option_map trim v else v).
Proof.
  intros out. destruct v as [[| c r] |]; reflexivity.
Qed.

Lemma truthy_guarded_trim (v : option jsstring) :
  truthy (if truthy v then option_map trim v else v) = truthy (option_map trim v).
Proof.
  destruct v as [[| c r] |]; reflexivity.
Qed.

Lemma parseProduct_silent (product : jsstring) :
  silent (parseProduct product) (parsed product).
Proof.
  intros out. unfold parseProduct.
  rewrite run_bind, guarded_trim_silent.
  rewrite run_bind, normalizeAttributes_silent.
  rewrite run_bind, normalizeAttributes_silent.
  rewrite run_ret, truthy_guarded_trim. reflexivity.
Qed.

(** ** What the whole-string validator returns *)

Lemma detect_run (product : Product) (index : nat) (h : bool) (out : console) :
  exists out', run (detect product index h) out = inr (h || symptom product, out').
Proof.
  unfold detect, symptom. rewrite run_bind.
  destruct (truthy (Some (category product)));
    destruct (test_fraction (trim (category product)));
    destruct (test_digits (trim (category product)));
    destruct h; cbn [andb orb];
    repeat (rewrite ?run_bind, ?run_warn, ?run_ret); eauto.
Qed.

Lemma forEach_detect_run (products : list Product) :
  forall index h out, exists out',
    run (forEach_detect products index h) out
    = inr (h || existsb symptom products, out').
Proof.
  induction products as [| p r IH]; intros index h out; cbn [forEach_detect existsb].
  - exists out. rewrite run_ret, orb_false_r. reflexivity.
  - rewrite run_bind.
    destruct (detect_run p index h out) as [out1 ->].
    destruct (IH (S index) (h || symptom p) out1) as [out2 ->].
    exists out2. rewrite orb_assoc. reflexivity.
Qed.

Lemma validateProductString_run (s : jsstring) (out : console) :
  exists out', run (validateProductString s) out = inr (validated s, out').
Proof.
  unfold validateProductString, validated.
  destruct (trim s) as [| c r] eqn:Ht; cbn [truthy negb is_nil].
  - exists out. reflexivity.
  - rewrite run_bind, (mapM_silent parseProduct parsed parseProduct_silent).
    rewrite run_bind.
    destruct (forEach_detect_run (map parsed (split (unit_of ",") s)) 0 false out)
      as [out' ->].
    exists out'. rewrite run_ret. reflexivity.
Qed.

(** ** The model on the examples of the documentation *)

Example parseFloat_examples :
  map (fun t => parseFloat (js t))
      ["3.50"; "5.99abc"; " 12"; "-0"; "abc"; ".5e-3x"; "1e"; "Infinityx"; ""]%string
  = [Dec false 350 (-2); Dec false 599 (-2); Dec false 12 0; Dec true 0 0; NaN;
     Dec false 5 (-4); Dec false 1 0; Infinity false; NaN].
Proof. reflexivity. Qed.

Example Number_examples :
  map (fun t => or_zero (Number (Some (js t))))
      ["1"; " 2 "; ""; "0x1F"; "1abc"; "-0"; "1e3"]%string
  = [Dec false 1 0; Dec false 2 0; zero; Dec false 31 0; zero; zero; Dec false 1 3]
  /\ or_zero (Number None) = zero.
Proof. split; reflexivity. Qed.

(** Two well-formed products: both valid, prices 3.50 and 5.99, no
    events, no evars, nothing on the console. *)
Example two_valid_products :
  run (validateProductString
         (js "Example category;Example product;1;3.50,Another category;Another product;2;5.99"))
      []
  = inr ([mkProduct (js "Example category") (js "Example product")
            (Dec false 1 0) (Dec false 350 (-2)) [] [] true;
          mkProduct (js "Another category") (js "Another product")
            (Dec false 2 0) (Dec false 599 (-2)) [] [] true], []).
Proof. reflexivity. Qed.

(** An empty item: invalid, and no cascading error is reported. *)
Example empty_item :
  run (validateProductString (js "Cat;;1;5.00")) []
  = inr ([mkProduct (js "Cat") [] (Dec false 1 0) (Dec false 500 (-2)) [] [] false],
         []).
Proof. reflexivity. Qed.

Example two_events :
  run (normalizeAttributes (Some (js "event1=4.99|event2=1"))) []
  = inr ([mkAttribute (js "event1") (Some (js "4.99"));
          mkAttribute (js "event2") (Some (js "1"))], []).
Proof. reflexivity. Qed.

(** ** Facts about the string operations *)

Section StringFacts.

Variable sep : N.

Lemma split_not_nil (s : jsstring) : split sep s <> [].
Proof.
  destruct s as [| c r]; cbn [split]; [discriminate |].
  destruct (c =? sep); [discriminate |].
  destruct (split sep r); discriminate.
Qed.

(** One more piece than there are separators. *)
Lemma split_length (s : jsstring) :
  length (split sep s) = S (count_occ N.eq_dec s sep).
Proof.
  induction s as [| c r IH]; cbn [split count_occ]; [reflexivity |].
  destruct (N.eqb_spec c sep) as [-> | Hne].
  - destruct (N.eq_dec sep sep); [| contradiction]. cbn [length]. now rewrite IH.
  - destruct (N.eq_dec c sep); [contradiction |].
    destruct (split sep r) as [| piece pieces] eqn:E.
    + now destruct (split_not_nil r).
    + exact IH.
Qed.

Lemma split_without_sep (s : jsstring) :
  includes sep s = false -> split sep s = [s].
Proof.
  unfold includes. induction s as [| c r IH]; cbn [existsb split]; [reflexivity |].
  intros H. apply orb_false_elim in H as [Hc Hr].
  rewrite N.eqb_sym in Hc. rewrite Hc, (IH Hr). reflexivity.
Qed.

(** No piece contains the separator. *)
Lemma split_pieces_clean (s piece : jsstring) :
  In piece (split sep s) -> includes sep piece = false.
Proof.
  revert piece. induction s as [| c r IH]; cbn [split]; intros piece H.
  - destruct H as [<- | []]. reflexivity.
  - destruct (N.eqb_spec c sep) as [-> | Hne].
    + destruct H as [<- | H]; [reflexivity | now apply IH].
    + destruct (split sep r) as [| p ps] eqn:E.
      * now destruct (split_not_nil r).
      * destruct H as [<- | H].
        -- unfold includes. cbn [existsb].
           rewrite (proj2 (N.eqb_neq sep c)) by congruence.
           apply (IH p). now left.
        -- apply IH. now right.
Qed.


Lemma after_first_none (s : jsstring) :
  after_first sep s = None <-> includes sep s = false.
Proof.
  unfold includes.
  induction s as [| c r IH]; cbn [after_first existsb]; [tauto |].
  rewrite (N.eqb_sym sep c). destruct (c =? sep); cbn [orb]; [| exact IH].
  split; discriminate.
Qed.

Lemma before_first_without_sep (s : jsstring) :
  includes sep s = false -> before_first sep s = s.
Proof.
  unfold includes. induction s as [| c r IH]; cbn [existsb before_first]; [reflexivity |].
  intros H. apply orb_false_elim in H as [Hc Hr].
  rewrite N.eqb_sym in Hc. rewrite Hc, (IH Hr). reflexivity.
Qed.

(** The first piece of a split, and the split of what follows. *)
Lemma split_first (s : jsstring) :
  split sep s
  = before_first sep s
    :: match after_first sep s with Some r => split sep r | None => [] end.
Proof.
  induction s as [| c r IH]; cbn [split before_first after_first]; [reflexivity |].
  destruct (c =? sep); [reflexivity |].
  rewrite IH. reflexivity.
Qed.

End StringFacts.

Lemma trimStart_nil (s : jsstring) :
  trimStart s = [] <-> forallb is_ws s = true.
Proof.
  induction s as [| c r IH]; cbn [trimStart forallb]; [tauto |].
  destruct (is_ws c); cbn [andb]; [exact IH |].
  split; discriminate.
Qed.

Lemma trim_nil (s : jsstring) :
  trim s = [] <-> forallb is_ws s = true.
Proof.
  unfold trim, trimEnd. rewrite <- trimStart_nil. split.
  - intros H. apply (f_equal (@rev N)) in H. rewrite rev_involutive in H.
    cbn [rev] in H.
    destruct (trimStart s) as [| c r] eqn:E; [reflexivity |].
    exfalso.
    assert (Hc : is_ws c = false).
    { destruct s as [| a s']; [discriminate |].
      revert E. generalize (a :: s'). intros l.
      induction l as [| x l IHl]; cbn [trimStart]; [discriminate |].
      destruct (is_ws x) eqn:Hx; [exact IHl |].
      intros [= -> _]. exact Hx. }
    apply trimStart_nil in H. rewrite forallb_forall in H.
    specialize (H c). rewrite Hc in H.
    discriminate H. apply in_rev. rewrite rev_involutive. now left.
  - intros ->. reflexivity.
Qed.

Lemma whitespace_has_no_comma (s : jsstring) :
  forallb is_ws s = true -> includes (unit_of ",") s = false.
Proof.
  unfold includes. induction s as [| c r IH]; cbn [forallb existsb]; [reflexivity |].
  intros H. apply andb_prop in H as [Hc Hr]. rewrite (IH Hr), orb_false_r.
  destruct (N.eqb_spec (unit_of ",") c) as [<- |]; [discriminate Hc | reflexivity].
Qed.

(** ** The attribute-list normalizer *)

Lemma attribute_of_two_parts (piece : jsstring) :
  attribute_of piece = entry_of_two_parts piece.
Proof.
  unfold attribute_of, entry_of_two_parts.
  rewrite split_first. cbn [nth_error property_key]. f_equal.
  destruct (after_first (unit_of "=") piece) as [v |]; [| reflexivity].
  rewrite split_first. reflexivity.
Qed.

(** With a single [=] the value is all the text behind it. *)
Lemma attribute_of_single_eq (piece v : jsstring) :
  after_first (unit_of "=") piece = Some v ->
  includes (unit_of "=") v = false ->
  attribute_of piece = entry_at_first_eq piece.
Proof.
  intros Hv Hclean. rewrite attribute_of_two_parts.
  unfold entry_of_two_parts, entry_at_first_eq. rewrite Hv. cbn [option_map].
  rewrite (before_first_without_sep _ v Hclean). reflexivity.
Qed.

(** C1, as the specification states it, fails: a non-empty field
    without [|] is not turned into a one-element sequence; for
    ["eVar1=Value1"] the normalizer returns the empty sequence, not the
    single attribute [{eVar1: "Value1"}]. *)
Lemma normalizeAttributes_single_entry_refuted :
  run (normalizeAttributes (Some (js "eVar1=Value1"))) [] = inr ([], [])
  /\ ~ (exists out,
          run (normalizeAttributes (Some (js "eVar1=Value1"))) []
          = inr ([entry_at_first_eq (js "eVar1=Value1")], out))
  /\ entry_at_first_eq (js "eVar1=Value1")
     = mkAttribute (js "eVar1") (Some (js "Value1")).
Proof.
  split; [reflexivity |]. split; [| reflexivity].
  intros [out H]. discriminate H.
Qed.

(** C1, amended: for every non-empty raw attribute field that contains
    no [|], the attribute-list normalizer returns the empty sequence
    (the guard of [processEventAttributes] gives [undefined], which
    [normalizeAttributes] turns into [[]]), and the console is left as
    it was. *)
Theorem normalizeAttributes_without_bar (raw : jsstring) (out : console) :
  raw <> [] ->
  includes (unit_of "|") raw = false ->
  run (normalizeAttributes (Some raw)) out = inr ([], out)
  /\ run (normalizeAttributes (Some (js "eVar1=Value1"))) out = inr ([], out).
Proof.
  intros _ Hbar. rewrite !normalizeAttributes_silent.
  cbn [attributes]. rewrite Hbar. split; reflexivity.
Qed.

Lemma normalizeAttributes_without_bar_witness :
  run (normalizeAttributes (Some (js "event1"))) [] = inr ([], [])
  /\ run (normalizeAttributes (Some (js "eVar1=Value1"))) [] = inr ([], []).
Proof.
  apply (normalizeAttributes_without_bar (js "event1") []).
  - discriminate.
  - reflexivity.
Defined.

(** C7, as the specification states it, fails: the piece ["k=a=b"] of
    the field ["x|k=a=b"] gets the value ["a"], not ["a=b"]; the text
    from the second [=] on is dropped. *)
Lemma normalizeAttributes_first_eq_refuted :
  run (normalizeAttributes (Some (js "x|k=a=b"))) []
  = inr ([mkAttribute (js "x") None; mkAttribute (js "k") (Some (js "a"))], [])
  /\ entry_at_first_eq (js "k=a=b") = mkAttribute (js "k") (Some (js "a=b"))
  /\ ~ (exists out,
          run (normalizeAttributes (Some (js "x|k=a=b"))) []
          = inr (map entry_at_first_eq (split (unit_of "|") (js "x|k=a=b")), out)).
Proof.
  split; [reflexivity |]. split; [reflexivity |].
  intros [out H]. discriminate H.
Qed.

(** C7, amended: for every attribute field containing [|], the
    normalizer splits on [|] first and then cuts each piece at every
    [=], keeping the first two parts: the key is the text in front of
    the first [=], the value the text between the first [=] and the
    next [=] or the end of the piece (absent when there is no [=]); for
    the piece ["k=a=b"] the key is ["k"] and the value is ["a"]. *)
Theorem normalizeAttributes_with_bar (field : jsstring) (out : console) :
  includes (unit_of "|") field = true ->
  run (normalizeAttributes (Some field)) out
  = inr (map entry_of_two_parts (split (unit_of "|") field), out)
  /\ entry_of_two_parts (js "k=a=b") = mkAttribute (js "k") (Some (js "a")).
Proof.
  intros Hbar. split; [| reflexivity]. rewrite normalizeAttributes_silent.
  cbn [attributes]. rewrite Hbar. f_equal. f_equal.
  apply map_ext. exact attribute_of_two_parts.
Qed.

Lemma normalizeAttributes_with_bar_witness :
  run (normalizeAttributes (Some (js "x|k=a=b"))) []
  = inr ([mkAttribute (js "x") None; mkAttribute (js "k") (Some (js "a"))], [])
  /\ entry_of_two_parts (js "k=a=b") = mkAttribute (js "k") (Some (js "a")).
Proof.
  apply (normalizeAttributes_with_bar (js "x|k=a=b") []).
  reflexivity.
Defined.

(** ** Digits and the category patterns *)

Lemma is_digit_spec (c : N) : is_digit c = true <-> Digit c.
Proof.
  unfold is_digit, Digit. rewrite andb_true_iff, !N.leb_le. tauto.
Qed.

Lemma is_digit_false (c : N) : is_digit c = false <-> ~ Digit c.
Proof.
  rewrite <- is_digit_spec. destruct (is_digit c); split; congruence.
Qed.

Lemma all_digits_spec (s : jsstring) :
  forallb is_digit s = true <-> Forall Digit s.
Proof.
  rewrite forallb_forall, Forall_forall.
  split; intros H c Hc; apply is_digit_spec; auto.
Qed.

Lemma span_digits_app (ds rest : jsstring) :
  Forall Digit ds -> no_digit_ahead rest ->
  span_digits (ds ++ rest) = (ds, rest).
Proof.
  intros Hds Hrest. induction Hds as [| c ds Hc _ IH]; cbn [app].
  - destruct rest as [| c r]; [reflexivity |]. cbn [span_digits].
    apply is_digit_false in Hrest. now rewrite Hrest.
  - cbn [span_digits]. apply is_digit_spec in Hc. now rewrite Hc, IH.
Qed.

Lemma span_digits_spec (s : jsstring) :
  s = fst (span_digits s) ++ snd (span_digits s)
  /\ Forall Digit (fst (span_digits s))
  /\ no_digit_ahead (snd (span_digits s)).
Proof.
  induction s as [| c r (Heq & Hds & Hrest)]; cbn [span_digits].
  - cbn. auto.
  - destruct (is_digit c) eqn:Hc.
    + destruct (span_digits r) as [ds rest]. cbn [fst snd] in *.
      repeat split; [cbn; congruence | | exact Hrest].
      constructor; [now apply is_digit_spec | exact Hds].
    + cbn [fst snd app]. repeat split; [constructor |].
      now apply is_digit_false.
Qed.

Lemma is_nil_false {A : Type} (l : list A) : is_nil l = false <-> l <> [].
Proof. destruct l; cbn; split; congruence. Qed.

Lemma test_digits_spec (t : jsstring) :
  test_digits t = true <-> DigitsPattern t.
Proof.
  unfold test_digits, DigitsPattern.
  rewrite andb_true_iff, negb_true_iff, is_nil_false, all_digits_spec. tauto.
Qed.

Lemma test_fraction_spec (t : jsstring) :
  test_fraction t = true <-> FractionPattern t.
Proof.
  unfold test_fraction, FractionPattern. split.
  - destruct (span_digits_spec t) as (Heq & Hds & _).
    destruct (span_digits t) as [ds rest]. cbn [fst snd] in *.
    rewrite andb_true_iff, negb_true_iff, is_nil_false.
    intros [Hne Hrest]. destruct rest as [| c fs]; [discriminate |].
    apply andb_prop in Hrest as [Hc Hfs].
    exists ds, c, fs. repeat split; auto.
    + apply orb_prop in Hc as [Hc | Hc]; apply N.eqb_eq in Hc; auto.
    + now apply all_digits_spec.
  - intros (ds & c & fs & -> & Hne & Hds & Hc & Hfs).
    rewrite span_digits_app; auto.
    + apply is_nil_false in Hne. rewrite Hne. cbn [negb andb].
      apply all_digits_spec in Hfs. rewrite Hfs, andb_true_r.
      destruct Hc as [-> | ->]; reflexivity.
    + cbn. unfold Digit. destruct Hc as [-> | ->]; cbn; lia.
Qed.

(** ** The validity-propagation pass *)

Lemma demoted_only_refl (p : Product) : demoted_only p p.
Proof. unfold demoted_only. tauto. Qed.

Lemma invalidate_demoted_only (p : Product) : demoted_only p (invalidate p).
Proof.
  unfold invalidate. destruct (isValid p) eqn:E.
  - unfold demoted_only. cbn. tauto.
  - apply demoted_only_refl.
Qed.

Lemma invalidate_isValid (p : Product) : isValid (invalidate p) = false.
Proof. unfold invalidate. destruct (isValid p) eqn:E; [reflexivity | exact E]. Qed.

Lemma invalidate_category (p : Product) : category (invalidate p) = category p.
Proof. unfold invalidate. destruct (isValid p); reflexivity. Qed.

Lemma cascade_length (h : bool) (products : list Product) :
  length (cascade h products) = length products.
Proof. destruct h; cbn [cascade]; [apply length_map | reflexivity]. Qed.

Lemma symptom_invalidate (p : Product) : symptom (invalidate p) = symptom p.
Proof. unfold symptom. now rewrite invalidate_category. Qed.

Lemma existsb_symptom_cascade (h : bool) (products : list Product) :
  existsb symptom (cascade h products) = existsb symptom products.
Proof.
  destruct h; cbn [cascade]; [| reflexivity].
  induction products as [| p r IH]; cbn [map existsb]; [reflexivity |].
  now rewrite symptom_invalidate, IH.
Qed.

(** C8: the cascading validity-propagation pass only ever changes
    [isValid] from true to false: the sequence keeps its length and its
    order, for every product category, item, quantity, price, events
    and evars are the same before and after the pass, and a product
    with [isValid = false] is never promoted to valid. What
    [validateProductString] returns for an input that does not trim to
    the empty string is this pass applied to the parsed segments. *)
Theorem cascade_demotes_only
  (hasCascadingError : bool) (products : list Product)
  (s : jsstring) (out : console) :
  Forall2 demoted_only products (cascade hasCascadingError products)
  /\ exists before flag out',
       run (mapM parseProduct (split (unit_of ",") s)) out = inr (before, out)
       /\ run (validateProductString s) out
          = inr (if is_nil (trim s) then [] else cascade flag before, out').
Proof.
  split.
  - destruct hasCascadingError; cbn [cascade].
    + induction products as [| p r IH]; cbn [map]; constructor.
      * apply invalidate_demoted_only.
      * exact IH.
    + induction products as [| p r IH]; constructor.
      * apply demoted_only_refl.
      * exact IH.
  - destruct (validateProductString_run s out) as [out' H].
    exists (map parsed (split (unit_of ",") s)),
           (existsb symptom (map parsed (split (unit_of ",") s))), out'.
    split; [apply (mapM_silent parseProduct parsed parseProduct_silent) |].
    exact H.
Qed.

(** ** The whole-string validator *)

(** C6: for every input string, the empty one, strings of delimiters
    only and strings of any number of segments included, the
    whole-string validator returns a sequence of products and raises no
    error; for the empty string it returns the empty sequence, whose
    whole-string validity is true. *)
Theorem validateProductString_total (s : jsstring) (out : console) :
  (exists products out',
      run (validateProductString s) out = inr (products, out'))
  /\ run (validateProductString []) out = inr ([], out)
  /\ isStringValid [] = true.
Proof.
  split; [| split; reflexivity].
  destruct (validateProductString_run s out) as [out' H]. eauto.
Qed.

(** C2, as the specification states it, fails on the empty string: it
    splits on [,] into one segment, and the validator returns no
    product. *)
Lemma product_count_refuted :
  run (validateProductString (js "")) [] = inr ([], [])
  /\ length (split (unit_of ",") (js "")) = 1%nat
  /\ ~ (exists products out,
          run (validateProductString (js "")) [] = inr (products, out)
          /\ length products = length (split (unit_of ",") (js ""))).
Proof.
  split; [reflexivity |]. split; [reflexivity |].
  intros (products & out & H & Hlen).
  injection H as <- _. discriminate Hlen.
Qed.

(** C2, amended: for every input string that does not trim to the
    empty string, the number of products returned by the whole-string
    validator is the length of the input split on [,], one more than
    the number of commas. *)
Theorem product_count (s : jsstring) (out : console) :
  trim s <> [] ->
  exists products out',
    run (validateProductString s) out = inr (products, out')
    /\ length products = length (split (unit_of ",") s)
    /\ length products = S (count_occ N.eq_dec s (unit_of ",")).
Proof.
  intros Hs. destruct (validateProductString_run s out) as [out' H].
  exists (validated s), out'. split; [exact H |].
  assert (Hlen : length (validated s) = length (split (unit_of ",") s)).
  { unfold validated. apply is_nil_false in Hs. rewrite Hs.
    cbv zeta. now rewrite cascade_length, length_map. }
  split; [exact Hlen |]. rewrite Hlen. apply split_length.
Qed.

Lemma product_count_witness :
  exists products out',
    run (validateProductString (js "Cat;Name;1;3,50")) [] = inr (products, out')
    /\ length products = length (split (unit_of ",") (js "Cat;Name;1;3,50"))
    /\ length products
       = S (count_occ N.eq_dec (js "Cat;Name;1;3,50") (unit_of ",")).
Proof.
  apply (product_count (js "Cat;Name;1;3,50") []).
  discriminate.
Defined.

(** C9: for every input string that is not empty but consists of white
    space only (it trims to the empty string), the whole-string
    validator returns the empty sequence, as for the empty input,
    although such an input splits on [,] into one segment. *)
Theorem validateProductString_blank (s : jsstring) (out : console) :
  s <> [] ->
  trim s = [] ->
  run (validateProductString s) out = inr ([], out)
  /\ run (validateProductString s) out = run (validateProductString []) out
  /\ length (split (unit_of ",") s) = 1%nat.
Proof.
  intros _ Ht.
  assert (Hrun : run (validateProductString s) out = inr ([], out)).
  { unfold validateProductString. rewrite Ht. reflexivity. }
  split; [exact Hrun |]. split; [rewrite Hrun; reflexivity |].
  apply trim_nil, whitespace_has_no_comma in Ht.
  now rewrite split_without_sep.
Qed.

Lemma validateProductString_blank_witness :
  run (validateProductString (js "  ")) [] = inr ([], [])
  /\ run (validateProductString (js "  ")) [] = run (validateProductString []) []
  /\ length (split (unit_of ",") (js "  ")) = 1%nat.
Proof.
  apply (validateProductString_blank (js "  ") []).
  - discriminate.
  - reflexivity.
Defined.

Lemma truthy_of_trimmed (c : jsstring) : trim c <> [] -> truthy (Some c) = true.
Proof. destruct c; [intros H; now destruct H | reflexivity]. Qed.

Lemma symptom_of_patterns (p : Product) :
  FractionPattern (trim (category p)) \/ DigitsPattern (trim (category p)) ->
  symptom p = true.
Proof.
  intros H. unfold symptom.
  assert (Hne : trim (category p) <> []).
  { destruct H as [(ds & c & fs & -> & _) | [Hne _]]; [| exact Hne].
    destruct ds; discriminate. }
  rewrite (truthy_of_trimmed _ Hne). cbn [andb].
  destruct H as [H | H].
  - apply test_fraction_spec in H. now rewrite H.
  - apply test_digits_spec in H. rewrite H. apply orb_true_r.
Qed.

Lemma isStringValid_all_invalid (p : Product) (products : list Product) :
  In p products ->
  Forall (fun q => isValid q = false) products ->
  isStringValid products = false.
Proof.
  intros Hin Hall. unfold isStringValid. apply negb_false_iff, existsb_exists.
  exists p. split; [exact Hin |].
  rewrite Forall_forall in Hall. now rewrite (Hall p Hin).
Qed.

(** C3: for every input string, if the trimmed category of at least one
    parsed product is one or more digits followed by [.] or [,] and
    zero or more digits, or is one or more digits only, then every
    product of the returned sequence has [isValid = false], and the
    whole-string validity, the conjunction of the flags, is false. The
    parsed products are read off the returned sequence: the pass keeps
    every category ([invalidate_category]). *)
Theorem cascading_error_invalidates_all
  (s : jsstring) (out out' : console) (products : list Product) :
  run (validateProductString s) out = inr (products, out') ->
  (exists p, In p products
             /\ (FractionPattern (trim (category p))
                 \/ DigitsPattern (trim (category p)))) ->
  Forall (fun q => isValid q = false) products
  /\ isStringValid products = false.
Proof.
  intros Hrun (p & Hin & Hpat).
  destruct (validateProductString_run s out) as [out1 H1].
  rewrite H1 in Hrun. injection Hrun as <- _.
  assert (Hall : Forall (fun q => isValid q = false) (validated s)).
  { assert (Hs : existsb symptom (validated s) = true).
    { apply existsb_exists. exists p. split; [exact Hin |].
      now apply symptom_of_patterns. }
    revert Hs. unfold validated.
    destruct (is_nil (trim s)); [discriminate |]. cbv zeta.
    rewrite existsb_symptom_cascade. intros ->. cbn [cascade].
    apply Forall_forall. intros q Hq. apply in_map_iff in Hq as (q0 & <- & _).
    apply invalidate_isValid. }
  split; [exact Hall |]. now apply (isStringValid_all_invalid p).
Qed.

Lemma cascading_error_invalidates_all_witness :
  Forall (fun q => isValid q = false)
    [mkProduct (js "Cat") (js "Name") (Dec false 1 0) (Dec false 3 0) [] [] false;
     mkProduct (js "50") [] zero zero [] [] false]
  /\ isStringValid
       [mkProduct (js "Cat") (js "Name") (Dec false 1 0) (Dec false 3 0) [] [] false;
        mkProduct (js "50") [] zero zero [] [] false] = false.
Proof.
  apply (cascading_error_invalidates_all
           (js "Cat;Name;1;3,50") [] [NumericCategory 2]).
  - reflexivity.
  - exists (mkProduct (js "50") [] zero zero [] [] false). split.
    + right. left. reflexivity.
    + right. split; [discriminate |].
      repeat constructor; cbn; lia.
Defined.

(** After the split on [,] no field of any segment holds a comma: the
    substitution in [parseProduct] has nothing to replace. *)
Lemma comma_substitution_idle (s segment field : jsstring) :
  In segment (split (unit_of ",") s) ->
  In field (split (unit_of ";") segment) ->
  replace (unit_of ",") (unit_of ".") field = field.
Proof.
  intros Hseg Hfield. apply split_pieces_clean in Hseg.
  assert (Hclean : includes (unit_of ",") field = false).
  { revert field Hfield. unfold includes in *.
    induction segment as [| c r IH]; intros field Hfield.
    - destruct Hfield as [<- | []]. reflexivity.
    - cbn [existsb] in Hseg. apply orb_false_elim in Hseg as [Hc Hr].
      cbn [split] in Hfield.
      destruct (c =? unit_of ";").
      + destruct Hfield as [<- | Hfield]; [reflexivity | now apply IH].
      + destruct (split (unit_of ";") r) as [| piece pieces] eqn:E.
        * now destruct (split_not_nil (unit_of ";") r).
        * destruct Hfield as [<- | Hfield].
          -- cbn [existsb]. rewrite Hc. apply (IH Hr piece). now left.
          -- apply (IH Hr). now right. }
  clear Hseg Hfield. unfold includes in Hclean.
  induction field as [| c r IH]; [reflexivity |].
  cbn [existsb] in Hclean. apply orb_false_elim in Hclean as [Hc Hr].
  cbn [replace]. rewrite N.eqb_sym in Hc. now rewrite Hc, (IH Hr).
Qed.

(** C5: for the input ["Cat;Name;1;3,50"] the top-level split on [,]
    cuts the price in two, the segments are ["Cat;Name;1;3"] and
    ["50"]; the validator returns exactly two products, the category of
    the second one is ["50"], which is digits only, so the first loop
    sets [hasCascadingError], and both products end with
    [isValid = false]. The price field of the first segment is ["3"]:
    there is no comma left in it for the substitution to replace, and
    the price is 3, not 3.50. *)
Theorem scenario_collided_price :
  let input := js "Cat;Name;1;3,50" in
  let first := mkProduct (js "Cat") (js "Name") (Dec false 1 0) (Dec false 3 0) [] [] in
  let second := mkProduct (js "50") [] zero zero [] [] in
  split (unit_of ",") input = [js "Cat;Name;1;3"; js "50"]
  /\ run (mapM parseProduct (split (unit_of ",") input)) []
     = inr ([first true; second false], [])
  /\ test_digits (trim (category (second false))) = true
  /\ run (forEach_detect [first true; second false] 0 false) []
     = inr (true, [NumericCategory 2])
  /\ run (validateProductString input) []
     = inr ([first false; second false], [NumericCategory 2])
  /\ isStringValid [first false; second false] = false
  /\ nth_error (split (unit_of ";") (js "Cat;Name;1;3")) 3 = Some (js "3")
  /\ replace (unit_of ",") (unit_of ".") (js "3") = js "3"
  /\ parseFloat (js "3") = Dec false 3 0
  /\ parseFloat (js "3.50") = Dec false 350 (-2).
Proof.
  cbv zeta. repeat split; vm_compute; reflexivity.
Qed.

(** ** The segment parser *)

Lemma isValidPrice_spec (x : jsnum) :
  negb (isNaN x) && ge_zero x = true <-> non_negative_number x.
Proof.
  destruct x as [| neg | neg m e]; cbn [isNaN ge_zero negb andb non_negative_number].
  - split; [discriminate | tauto].
  - apply negb_true_iff.
  - rewrite orb_true_iff, negb_true_iff. tauto.
Qed.

Lemma price_text_spec (field : option jsstring) :
  or_else (option_map (replace (unit_of ",") (unit_of ".")) field) (js "0")
  = price_text field.
Proof.
  destruct field as [[| c r] |]; try reflexivity.
  cbn [option_map replace price_text]. destruct (c =? unit_of ","); reflexivity.
Qed.

Lemma hasValidItem_spec (field : option jsstring) :
  truthy (option_map trim field) = true
  <-> exists name, field = Some name /\ trim name <> [].
Proof.
  destruct field as [name |]; cbn [option_map truthy].
  - split.
    + intros H. exists name. split; [reflexivity |].
      destruct (trim name); [discriminate | discriminate].
    + intros (n & [= <-] & Hn). destruct (trim name); [now destruct Hn | reflexivity].
  - split; [discriminate |]. intros (n & H & _). discriminate H.
Qed.

(** C4: for every segment, the product made by the segment parser has
    [isValid = true] exactly when the segment splits on [;] into at
    least 4 fields, the item field is not empty after trimming, and the
    price field with its first [,] replaced by [.] (["0"] standing in
    for a price that is not there) parses to a number that is not
    negative; the price of the product is that number. The 3-field
    segment ["Cat;Name;1"] gets [isValid = false]. *)
Theorem segment_validity (segment : jsstring) (out : console) :
  let parts := split (unit_of ";") segment in
  (exists product,
      run (parseProduct segment) out = inr (product, out)
      /\ price product = parseFloat (price_text (nth_error parts 3))
      /\ (isValid product = true
          <-> (4 <= length parts)%nat
              /\ (exists name, nth_error parts 1 = Some name /\ trim name <> [])
              /\ non_negative_number (parseFloat (price_text (nth_error parts 3)))))
  /\ (exists short,
         run (parseProduct (js "Cat;Name;1")) out = inr (short, out)
         /\ length (split (unit_of ";") (js "Cat;Name;1")) = 3%nat
         /\ isValid short = false).
Proof.
  cbv zeta. split.
  - exists (parsed segment). split; [apply parseProduct_silent |].
    unfold parsed. cbn [price isValid]. rewrite price_text_spec.
    split; [reflexivity |].
    rewrite <- isValidPrice_spec, <- hasValidItem_spec, <- Nat.leb_le.
    rewrite !andb_true_iff. tauto.
  - exists (parsed (js "Cat;Name;1")). split; [apply parseProduct_silent |].
    split; reflexivity.
Qed.

Lemma segment_validity_witness :
  exists product,
    run (parseProduct (js "Cat;Name;1;5.99")) [] = inr (product, [])
    /\ price product = Dec false 599 (-2)
    /\ isValid product = true.
Proof.
  destruct (segment_validity (js "Cat;Name;1;5.99") [])
    as [(product & Hrun & Hprice & Hvalid) _].
  exists product. split; [exact Hrun |]. split; [exact Hprice |].
  apply Hvalid. split; [cbn; lia |]. split.
  - exists (js "Name"). split; [reflexivity | discriminate].
  - left. reflexivity.
Defined.

(** ** Decimal literals and what [parseFloat] reads *)

Lemma digit_free_ahead (g : jsstring) : digit_free g -> no_digit_ahead g.
Proof. intros H. destruct H; cbn; auto. Qed.

Lemma span_digits_digit_free (g : jsstring) :
  digit_free g -> span_digits g = ([], g).
Proof.
  intros H. apply (span_digits_app [] g); [constructor | now apply digit_free_ahead].
Qed.

Lemma scan_exponent_absent (g : jsstring) :
  digit_free g -> scan_exponent g = None.
Proof.
  intros H. destruct H as [| c r Hc Hr]; [reflexivity |].
  cbn [scan_exponent]. destruct ((c =? 101) || (c =? 69)); [| reflexivity].
  destruct Hr as [| sg t Hsg Ht].
  - reflexivity.
  - destruct (sg =? 43); [| destruct (sg =? 45)];
      rewrite span_digits_digit_free; try reflexivity; auto.
    constructor; assumption.
Qed.

Lemma exponent_indicator_test (c : N) :
  exponent_indicator c -> (c =? 101) || (c =? 69) = true.
Proof. intros [-> | ->]; reflexivity. Qed.

Lemma digit_not_sign (d : N) : Digit d -> (d =? 43) = false /\ (d =? 45) = false.
Proof. unfold Digit. intros H. split; apply N.eqb_neq; lia. Qed.

Lemma scan_exponent_present (x g : jsstring) (e : Z) :
  ExponentPart x e -> no_digit_ahead g ->
  scan_exponent (x ++ g) = Some (e, g).
Proof.
  intros Hx Hg.
  destruct Hx as [ind ds Hind [Hne Hds] | ind ds Hind [Hne Hds] | ind ds Hind [Hne Hds]];
    cbn [app scan_exponent]; rewrite (exponent_indicator_test _ Hind).
  - destruct ds as [| d ds']; [now destruct Hne |]. cbn [app].
    destruct (digit_not_sign d (Forall_inv Hds)) as [-> ->].
    change (d :: ds' ++ g) with ((d :: ds') ++ g).
    rewrite span_digits_app by assumption. reflexivity.
  - change (unit_of "+" =? 43) with true. cbv iota.
    rewrite span_digits_app by assumption.
    apply is_nil_false in Hne. now rewrite Hne.
  - change (unit_of "-" =? 43) with false.
    change (unit_of "-" =? 45) with true. cbv iota.
    rewrite span_digits_app by assumption.
    apply is_nil_false in Hne. now rewrite Hne.
Qed.

Lemma exponent_ahead (x g : jsstring) (e : Z) :
  OptionalExponent x e -> digit_free g -> no_digit_ahead (x ++ g).
Proof.
  intros Hx Hg. destruct Hx as [| x e Hx]; [now apply digit_free_ahead |].
  destruct Hx as [ind ? [-> | ->] _ | ind ? [-> | ->] _ | ind ? [-> | ->] _];
    cbn; unfold Digit; lia.
Qed.

Lemma with_exponent_spec (ds x g : jsstring) (scale e : Z) :
  OptionalExponent x e -> digit_free g ->
  with_exponent ds scale (x ++ g) = (Dec false (digits_value ds) (scale + e)%Z, g).
Proof.
  intros Hx Hg. unfold with_exponent. destruct Hx as [| x e Hx].
  - cbn [app]. rewrite scan_exponent_absent by assumption.
    now rewrite Z.add_0_r.
  - rewrite (scan_exponent_present x g e Hx) by now apply digit_free_ahead.
    reflexivity.
Qed.

Lemma literal_start_app (s g : jsstring) :
  literal_start s -> literal_start (s ++ g).
Proof. destruct s; cbn; [intros [] | auto]. Qed.

Lemma UnsignedDecimal_start (num : jsstring) (v : jsnum) :
  UnsignedDecimal num v -> literal_start num.
Proof.
  intros H.
  destruct H as [ip fp x e [Hne Hip] _ _ | fp x e _ _ | ip x e [Hne Hip] _].
  - destruct Hip; [now destruct Hne |]. cbn. auto.
  - cbn. auto.
  - destruct Hip; [now destruct Hne |]. cbn. auto.
Qed.

Lemma not_Infinity (s : jsstring) :
  literal_start s -> strip_prefix (js "Infinity") s = None.
Proof.
  destruct s as [| c r]; [intros [] |]. cbn [literal_start].
  intros H. change (js "Infinity") with (73 :: js "nfinity"). cbn [strip_prefix].
  rewrite (proj2 (N.eqb_neq 73 c)); [reflexivity |].
  unfold Digit in H. destruct H as [H | ->]; [lia | discriminate].
Qed.

Lemma no_sign_no_space (s : jsstring) :
  literal_start s ->
  trimStart s = s /\ scan_decimal s = scan_unsigned s.
Proof.
  destruct s as [| c r]; [intros [] |]. cbn [literal_start].
  intros H. cbn [trimStart scan_decimal].
  assert (Hc : is_ws c = false /\ (c =? 43) = false /\ (c =? 45) = false).
  { unfold Digit in H. destruct H as [H | ->]; [| now vm_compute].
    unfold is_ws. repeat split;
      repeat match goal with
             | |- _ || _ = false => apply orb_false_intro
             | |- _ && _ = false => apply andb_false_iff
             end;
      try (apply N.eqb_neq; lia).
    all: (left; apply N.leb_gt; lia) || (right; apply N.leb_gt; lia). }
  destruct Hc as (-> & -> & ->). split; reflexivity.
Qed.

(** What the scanner makes of a literal followed by digit-free text. *)
Lemma scan_unsigned_literal (num g : jsstring) (v : jsnum) :
  UnsignedDecimal num v -> digit_free g ->
  exists rest, scan_unsigned (num ++ g) = Some (v, rest).
Proof.
  intros Hnum Hg. unfold scan_unsigned.
  rewrite not_Infinity
    by (apply literal_start_app; eapply UnsignedDecimal_start; eassumption).
  destruct Hnum as [ip fp x e [Hne Hip] Hfp Hx | fp x e [Hne Hfp] Hx | ip x e [Hne Hip] Hx].
  - rewrite <- app_assoc. cbn [app].
    rewrite span_digits_app; [| assumption | cbn; unfold Digit; lia].
    change (unit_of "." =? 46) with true. cbv iota.
    rewrite <- app_assoc.
    rewrite span_digits_app; [| assumption | now apply (exponent_ahead x g e)].
    apply is_nil_false in Hne. rewrite Hne. cbn [andb].
    rewrite (with_exponent_spec _ x g _ e) by assumption. eauto.
  - cbn [app span_digits]. change (is_digit (unit_of ".")) with false. cbv iota.
    change (unit_of "." =? 46) with true. cbv iota.
    rewrite <- app_assoc.
    rewrite span_digits_app; [| assumption | now apply (exponent_ahead x g e)].
    apply is_nil_false in Hne. rewrite Hne. cbn [is_nil andb app].
    rewrite (with_exponent_spec _ x g _ e) by assumption. eauto.
  - rewrite <- app_assoc.
    rewrite span_digits_app; [| assumption | now apply (exponent_ahead x g e)].
    apply is_nil_false in Hne. rewrite Hne.
    destruct Hx as [| x e Hx].
    + cbn [app]. destruct Hg as [| c g' Hc Hg']; [eexists; reflexivity |].
      destruct (c =? 46).
      * rewrite span_digits_digit_free by assumption. cbn [is_nil andb length].
        rewrite app_nil_r. unfold with_exponent.
        rewrite scan_exponent_absent by assumption. eauto.
      * unfold with_exponent.
        rewrite scan_exponent_absent by (constructor; assumption). eauto.
    + assert (Hhead : match x ++ g with
                      | c :: r2 => if c =? 46 then Some r2 else None
                      | [] => None
                      end = None).
      { destruct Hx as [ind ? [-> | ->] _ | ind ? [-> | ->] _ | ind ? [-> | ->] _];
          reflexivity. }
      rewrite Hhead.
      rewrite (with_exponent_spec ip x g 0 e) by (try constructor; assumption).
      eauto.
Qed.

(** [parseFloat] reads the literal and ignores digit-free text behind it. *)
Lemma parseFloat_literal (num g : jsstring) (v : jsnum) :
  UnsignedDecimal num v -> digit_free g -> parseFloat (num ++ g) = v.
Proof.
  intros Hnum Hg. unfold parseFloat.
  destruct (no_sign_no_space (num ++ g)) as [-> ->].
  { apply literal_start_app. eapply UnsignedDecimal_start. eassumption. }
  destruct (scan_unsigned_literal num g v Hnum Hg) as [rest ->]. reflexivity.
Qed.

Lemma digits_comma_free (ds : jsstring) : Forall Digit ds -> comma_free ds.
Proof.
  apply Forall_impl. intros c [Hlo Hhi] ->. now vm_compute in Hlo.
Qed.

Lemma exponent_comma_free (x : jsstring) (e : Z) :
  OptionalExponent x e -> comma_free x.
Proof.
  intros Hx. destruct Hx as [| x e Hx]; [constructor |].
  assert (Hind : forall ind, exponent_indicator ind -> ind <> unit_of ",").
  { intros ind [-> | ->]; discriminate. }
  unfold comma_free.
  destruct Hx as [ind ds Hi [_ Hds] | ind ds Hi [_ Hds] | ind ds Hi [_ Hds]].
  - constructor; [now apply Hind | now apply digits_comma_free].
  - constructor; [now apply Hind |].
    constructor; [discriminate | now apply digits_comma_free].
  - constructor; [now apply Hind |].
    constructor; [discriminate | now apply digits_comma_free].
Qed.

Lemma UnsignedDecimal_comma_free (num : jsstring) (v : jsnum) :
  UnsignedDecimal num v -> comma_free num.
Proof.
  intros H. unfold comma_free.
  destruct H as [ip fp x e [_ Hip] Hfp Hx | fp x e [_ Hfp] Hx | ip x e [_ Hip] Hx].
  - apply Forall_app. split; [now apply digits_comma_free |].
    constructor; [discriminate |]. apply Forall_app.
    split; [now apply digits_comma_free | now apply (exponent_comma_free x e)].
  - constructor; [discriminate |]. apply Forall_app.
    split; [now apply digits_comma_free | now apply (exponent_comma_free x e)].
  - apply Forall_app.
    split; [now apply digits_comma_free | now apply (exponent_comma_free x e)].
Qed.

Lemma replace_past_comma_free (s g : jsstring) :
  comma_free s ->
  replace (unit_of ",") (unit_of ".") (s ++ g)
  = s ++ replace (unit_of ",") (unit_of ".") g.
Proof.
  intros H. induction H as [| c r Hc _ IH]; [reflexivity |].
  cbn [app replace]. apply N.eqb_neq in Hc. now rewrite Hc, IH.
Qed.

Lemma replace_digit_free (g : jsstring) :
  digit_free g -> digit_free (replace (unit_of ",") (unit_of ".") g).
Proof.
  intros H. induction H as [| c r Hc Hr IH]; [constructor |].
  cbn [replace]. destruct (c =? unit_of ",").
  - constructor; [| exact Hr]. unfold Digit. cbn. lia.
  - constructor; assumption.
Qed.

(** C10: for every segment with at least 4 fields and an item that is
    not empty after trimming, whose price field is a decimal literal
    without sign followed by any text that holds no digit (as in
    ["5.99abc"]), the parsed price is the number the literal denotes,
    the same as for the literal alone, and the product has
    [isValid = true]: the text behind the number is ignored. *)
Theorem price_ignores_trailing_text
  (segment category_ name quantity_ num garbage : jsstring)
  (more : list jsstring) (v : jsnum) (out : console) :
  split (unit_of ";") segment
  = category_ :: name :: quantity_ :: (num ++ garbage) :: more ->
  trim name <> [] ->
  UnsignedDecimal num v ->
  digit_free garbage ->
  exists product,
    run (parseProduct segment) out = inr (product, out)
    /\ price product = v
    /\ parseFloat num = v
    /\ isValid product = true.
Proof.
  intros Hparts Hname Hnum Hg.
  exists (parsed segment). split; [apply parseProduct_silent |].
  assert (Hprice : price (parsed segment) = v).
  { unfold parsed. cbn [price]. rewrite Hparts. cbn [nth_error].
    rewrite price_text_spec.
    assert (Hstart := UnsignedDecimal_start num v Hnum).
    destruct num as [| c r]; [destruct Hstart |].
    cbn [app price_text]. change (c :: r ++ garbage) with ((c :: r) ++ garbage).
    rewrite replace_past_comma_free
      by (eapply UnsignedDecimal_comma_free; eassumption).
    apply parseFloat_literal; [assumption | now apply replace_digit_free]. }
  split; [exact Hprice |]. split.
  - rewrite <- (app_nil_r num). apply parseFloat_literal; [assumption | constructor].
  - assert (Hv : negb (isNaN v) && ge_zero v = true).
    { destruct Hnum; reflexivity. }
    revert Hprice Hv. unfold parsed. cbn [price isValid]. intros -> ->.
    rewrite Hparts. cbn [nth_error length option_map Nat.leb].
    destruct (trim name); [now destruct Hname | reflexivity].
Qed.

Lemma price_ignores_trailing_text_witness :
  exists product,
    run (parseProduct (js "Cat;Name;1;5.99abc")) [] = inr (product, [])
    /\ price product = Dec false 599 (-2)
    /\ parseFloat (js "5.99") = Dec false 599 (-2)
    /\ isValid product = true.
Proof.
  apply (price_ignores_trailing_text
           (js "Cat;Name;1;5.99abc") (js "Cat") (js "Name") (js "1")
           (js "5.99") (js "abc") [] (Dec false 599 (-2)) []).
  - reflexivity.
  - discriminate.
  - apply (UD_point (js "5") (js "99") [] 0).
    + split; [discriminate |]. repeat constructor; cbn; lia.
    + repeat constructor; cbn; lia.
    + constructor.
  - repeat constructor; unfold Digit; cbn; lia.
Defined.

(** * Further properties of the parser and of the component *)

(** ** The console, exactly *)

Lemma detect_console (product : Product) (index : nat) (h : bool) (out : console) :
  run (detect product index h) out
  = inr (h || symptom product, out ++ warnings_for product index).
Proof.
  unfold detect, symptom, warnings_for. rewrite run_bind.
  destruct (truthy (Some (category product)));
    destruct (test_fraction (trim (category product)));
    destruct (test_digits (trim (category product)));
    destruct h; cbn [andb orb app];
    repeat (rewrite ?run_bind, ?run_warn, ?run_ret);
    rewrite <- ?app_assoc, ?app_nil_r; reflexivity.
Qed.

Lemma forEach_detect_console (products : list Product) :
  forall index h out,
    run (forEach_detect products index h) out
    = inr (h || existsb symptom products, out ++ warnings_from products index).
Proof.
  induction products as [| p r IH]; intros index h out;
    cbn [forEach_detect existsb warnings_from].
  - rewrite run_ret, orb_false_r, app_nil_r. reflexivity.
  - rewrite run_bind, detect_console, IH, orb_assoc, app_assoc. reflexivity.
Qed.

Lemma validateProductString_console (s : jsstring) (out : console) :
  run (validateProductString s) out
  = inr (validated s,
         out ++ (if is_nil (trim s) then []
                 else warnings_from (map parsed (split (unit_of ",") s)) 0)).
Proof.
  unfold validateProductString, validated.
  destruct (trim s) as [| c r] eqn:Ht; cbn [truthy negb is_nil].
  - rewrite app_nil_r. reflexivity.
  - rewrite run_bind, (mapM_silent parseProduct parsed parseProduct_silent).
    rewrite run_bind, forEach_detect_console, run_ret. reflexivity.
Qed.

(** The two patterns of the first loop exclude each other. *)
Lemma fraction_not_digits (t : jsstring) :
  test_fraction t = true -> test_digits t = false.
Proof.
  intros H. apply test_fraction_spec in H as (ds & c & fs & -> & _ & _ & Hc & _).
  destruct (test_digits (ds ++ c :: fs)) eqn:E; [| reflexivity].
  apply test_digits_spec in E as [_ E]. apply Forall_app in E as [_ E].
  apply Forall_inv in E. unfold Digit in E.
  destruct Hc as [-> | ->]; cbn in E; lia.
Qed.

Lemma warnings_for_length (product : Product) (index : nat) :
  length (warnings_for product index) = if symptom product then 1%nat else 0%nat.
Proof.
  unfold warnings_for, symptom.
  destruct (truthy (Some (category product))); [| reflexivity]. cbn [andb].
  destruct (test_fraction (trim (category product))) eqn:Hf.
  - rewrite (fraction_not_digits _ Hf). reflexivity.
  - destruct (test_digits (trim (category product))); reflexivity.
Qed.

Lemma warnings_from_length (products : list Product) (index : nat) :
  length (warnings_from products index) = length (filter symptom products).
Proof.
  revert index. induction products as [| p r IH]; intros index; [reflexivity |].
  cbn [warnings_from filter]. rewrite length_app, warnings_for_length, IH.
  destruct (symptom p); reflexivity.
Qed.

Lemma warnings_for_numbers (product : Product) (index : nat) :
  Forall (fun w => productNo_of w = S index) (warnings_for product index).
Proof.
  unfold warnings_for. apply Forall_app. rewrite Nat.add_1_r.
  split; match goal with |- Forall _ (if ?b then _ else _) => destruct b end;
    repeat constructor.
Qed.

Lemma warnings_from_numbers (products : list Product) (index : nat) :
  Forall (fun w => (index < productNo_of w <= index + length products)%nat)
         (warnings_from products index).
Proof.
  revert index. induction products as [| p r IH]; intros index; [constructor |].
  cbn [warnings_from length]. apply Forall_app. split.
  - eapply Forall_impl; [| apply warnings_for_numbers].
    cbn beta. intros w ->. lia.
  - eapply Forall_impl; [| apply IH]. cbn beta. intros w Hw. lia.
Qed.

Lemma filter_symptom_cascade (h : bool) (products : list Product) :
  filter symptom (cascade h products) = cascade h (filter symptom products).
Proof.
  destruct h; cbn [cascade]; [| reflexivity].
  induction products as [| p r IH]; [reflexivity |].
  cbn [map filter]. rewrite symptom_invalidate, IH.
  destruct (symptom p); reflexivity.
Qed.

(** X1. The first loop writes one warning for each product whose category
    matches one of its two patterns, with a product number between 1
    and the number of products; what was on the console before stays
    in front. *)
Theorem console_one_warning_per_symptom
  (s : jsstring) (out out' : console) (products : list Product) :
  run (validateProductString s) out = inr (products, out') ->
  exists written,
    out' = out ++ written
    /\ length written = length (filter symptom products)
    /\ Forall (fun w => (1 <= productNo_of w <= length products)%nat) written.
Proof.
  rewrite validateProductString_console. intros [= <- <-].
  eexists. split; [reflexivity |]. unfold validated.
  destruct (is_nil (trim s)).
  - split; [reflexivity | constructor].
  - cbv zeta. split.
    + rewrite warnings_from_length, filter_symptom_cascade, cascade_length.
      reflexivity.
    + rewrite cascade_length. eapply Forall_impl; [| apply warnings_from_numbers].
      cbn beta. intros w Hw.
      change (split 44 s) with (split (unit_of ",") s) in Hw. lia.
Qed.

Lemma console_one_warning_per_symptom_witness :
  exists written,
    [NumericCategory 2] = [] ++ written
    /\ length written
       = length (filter symptom
           [mkProduct (js "Cat") (js "Name") (Dec false 1 0) (Dec false 3 0) [] [] false;
            mkProduct (js "50") [] zero zero [] [] false])
    /\ Forall (fun w => (1 <= productNo_of w <= 2)%nat) written.
Proof.
  apply (console_one_warning_per_symptom (js "Cat;Name;1;3,50") [] [NumericCategory 2]).
  reflexivity.
Defined.

(** ** Whole-string validity, segment by segment *)

Lemma isStringValid_forallb (products : list Product) :
  isStringValid products = forallb isValid products.
Proof.
  unfold isStringValid. induction products as [| p r IH]; [reflexivity |].
  cbn [existsb forallb]. rewrite negb_orb, negb_involutive. now f_equal.
Qed.

Lemma isStringValid_cascade (products : list Product) :
  isStringValid (cascade (existsb symptom products) products)
  = forallb (fun p => isValid p && negb (symptom p)) products.
Proof.
  destruct (existsb symptom products) eqn:E; cbn [cascade].
  - transitivity false.
    + apply existsb_exists in E as (p & Hin & _).
      apply (isStringValid_all_invalid (invalidate p)).
      * now apply in_map.
      * apply Forall_forall. intros q Hq.
        apply in_map_iff in Hq as (q0 & <- & _). apply invalidate_isValid.
    + symmetry. apply not_true_is_false. intros H.
      rewrite forallb_forall in H. apply existsb_exists in E as (p & Hin & Hp).
      specialize (H p Hin). rewrite Hp, andb_false_r in H. discriminate.
  - rewrite isStringValid_forallb.
    induction products as [| p r IH]; [reflexivity |].
    cbn [existsb forallb] in *. apply orb_false_elim in E as [Hp Hr].
    now rewrite Hp, andb_true_r, (IH Hr).
Qed.

Lemma forallb_ext_map {A B : Type} (f : B -> bool) (g : A -> B) (l : list A) :
  forallb f (map g l) = forallb (fun a => f (g a)) l.
Proof. induction l as [| a r IH]; [reflexivity |]. cbn. now rewrite IH. Qed.

Lemma isStringValid_validated (s : jsstring) :
  isStringValid (validated s)
  = if is_nil (trim s) then true
    else forallb sound_segment (split (unit_of ",") s).
Proof.
  unfold validated. destruct (is_nil (trim s)); [reflexivity |]. cbv zeta.
  rewrite isStringValid_cascade, forallb_ext_map. reflexivity.
Qed.

Lemma symptom_false_iff (p : Product) :
  symptom p = false
  <-> ~ FractionPattern (trim (category p)) /\ ~ DigitsPattern (trim (category p)).
Proof.
  split.
  - intros H. split; intros Hp.
    + rewrite symptom_of_patterns in H by now left. discriminate.
    + rewrite symptom_of_patterns in H by now right. discriminate.
  - intros [Hf Hd]. unfold symptom.
    destruct (test_fraction (trim (category p))) eqn:Ef.
    { apply test_fraction_spec in Ef. contradiction. }
    destruct (test_digits (trim (category p))) eqn:Ed.
    { apply test_digits_spec in Ed. contradiction. }
    apply andb_false_r.
Qed.

(** X2. A non-blank input is valid as a whole exactly when every one of
    its comma-separated segments parses to a valid product whose
    trimmed category matches neither pattern of the first loop. *)
Theorem string_valid_iff_segments_sound
  (s : jsstring) (out out' : console) (products : list Product) :
  trim s <> [] ->
  run (validateProductString s) out = inr (products, out') ->
  (isStringValid products = true
   <-> Forall (fun segment =>
                 exists p, run (parseProduct segment) out = inr (p, out)
                           /\ isValid p = true
                           /\ ~ FractionPattern (trim (category p))
                           /\ ~ DigitsPattern (trim (category p)))
              (split (unit_of ",") s)).
Proof.
  intros Hs. rewrite validateProductString_console. intros [= <- _].
  rewrite isStringValid_validated. apply is_nil_false in Hs. rewrite Hs.
  rewrite forallb_forall, Forall_forall.
  split; intros H segment Hin; specialize (H segment Hin).
  - exists (parsed segment). split; [apply parseProduct_silent |].
    unfold sound_segment in H. apply andb_prop in H as [Hv Hsym].
    split; [exact Hv |]. apply symptom_false_iff. now apply negb_true_iff.
  - destruct H as (p & Hrun & Hv & Hpat).
    rewrite parseProduct_silent in Hrun. injection Hrun as <-.
    unfold sound_segment. rewrite Hv. apply symptom_false_iff in Hpat.
    now rewrite Hpat.
Qed.

Lemma string_valid_iff_segments_sound_witness :
  isStringValid [mkProduct (js "Cat") (js "Name") (Dec false 1 0)
                   (Dec false 599 (-2)) [] [] true] = true
  <-> Forall (fun segment =>
                exists p, run (parseProduct segment) [] = inr (p, [])
                          /\ isValid p = true
                          /\ ~ FractionPattern (trim (category p))
                          /\ ~ DigitsPattern (trim (category p)))
             (split (unit_of ",") (js "Cat;Name;1;5.99")).
Proof.
  apply (string_valid_iff_segments_sound (js "Cat;Name;1;5.99") [] []).
  - discriminate.
  - reflexivity.
Defined.

Lemma split_app (sep : N) (a b : jsstring) :
  split sep (a ++ sep :: b) = split sep a ++ split sep b.
Proof.
  induction a as [| c r IH]; cbn [app split].
  - now rewrite N.eqb_refl.
  - destruct (c =? sep); [now rewrite IH |].
    rewrite IH. destruct (split sep r) as [| piece pieces] eqn:E.
    + now destruct (split_not_nil sep r).
    + reflexivity.
Qed.

Lemma comma_is_not_blank (a b : jsstring) : trim (a ++ unit_of "," :: b) <> [].
Proof.
  intros H. apply trim_nil in H. rewrite forallb_app in H.
  apply andb_prop in H as [_ H]. discriminate H.
Qed.

Lemma fields_of_cascade (h : bool) (products : list Product) :
  map fields_of (cascade h products) = map fields_of products.
Proof.
  destruct h; cbn [cascade]; [| reflexivity].
  rewrite map_map. apply map_ext. intros p. unfold invalidate.
  destruct (isValid p); reflexivity.
Qed.

(** X3. Joining two non-blank inputs with a comma joins their products:
    the sequence for the joined input has the fields of the first
    sequence followed by those of the second, and it is valid as a
    whole exactly when both inputs are. *)
Theorem validation_of_joined_inputs
  (s1 s2 : jsstring) (out o1 o2 o12 : console) (p1 p2 p12 : list Product) :
  trim s1 <> [] ->
  trim s2 <> [] ->
  run (validateProductString s1) out = inr (p1, o1) ->
  run (validateProductString s2) out = inr (p2, o2) ->
  run (validateProductString (s1 ++ unit_of "," :: s2)) out = inr (p12, o12) ->
  map fields_of p12 = map fields_of p1 ++ map fields_of p2
  /\ isStringValid p12 = isStringValid p1 && isStringValid p2.
Proof.
  intros H1 H2. rewrite !validateProductString_console.
  intros [= <- _] [= <- _] [= <- _].
  rewrite !isStringValid_validated. unfold validated.
  apply is_nil_false in H1, H2. rewrite H1, H2.
  change (s1 ++ 44 :: s2) with (s1 ++ unit_of "," :: s2).
  rewrite (proj2 (is_nil_false _) (comma_is_not_blank s1 s2)). cbv zeta.
  rewrite !fields_of_cascade, split_app, map_app, map_app, forallb_app.
  split; reflexivity.
Qed.

Lemma validation_of_joined_inputs_witness :
  map fields_of
      [mkProduct (js "A") (js "x") (Dec false 1 0) (Dec false 2 0) [] [] true;
       mkProduct (js "B") [] (Dec false 1 0) (Dec false 3 0) [] [] false]
  = map fields_of [mkProduct (js "A") (js "x") (Dec false 1 0) (Dec false 2 0) [] [] true]
    ++ map fields_of [mkProduct (js "B") [] (Dec false 1 0) (Dec false 3 0) [] [] false]
  /\ isStringValid
       [mkProduct (js "A") (js "x") (Dec false 1 0) (Dec false 2 0) [] [] true;
        mkProduct (js "B") [] (Dec false 1 0) (Dec false 3 0) [] [] false]
     = isStringValid
         [mkProduct (js "A") (js "x") (Dec false 1 0) (Dec false 2 0) [] [] true]
       && isStringValid
            [mkProduct (js "B") [] (Dec false 1 0) (Dec false 3 0) [] [] false].
Proof.
  apply (validation_of_joined_inputs (js "A;x;1;2") (js "B;;1;3") [] [] [] []);
    try discriminate; reflexivity.
Defined.

(** X4. One segment with fewer than four fields makes a non-blank input
    invalid as a whole; an empty segment, as a leading, trailing or
    doubled comma leaves it, is such a segment. *)
Theorem short_segment_invalidates_string
  (s segment : jsstring) (out out' : console) (products : list Product) :
  trim s <> [] ->
  run (validateProductString s) out = inr (products, out') ->
  In segment (split (unit_of ",") s) ->
  (length (split (unit_of ";") segment) < 4)%nat ->
  isStringValid products = false.
Proof.
  intros Hs. rewrite validateProductString_console. intros [= <- _] Hin Hlen.
  rewrite isStringValid_validated. apply is_nil_false in Hs. rewrite Hs.
  apply not_true_is_false. intros H. rewrite forallb_forall in H.
  specialize (H segment Hin). unfold sound_segment, parsed in H. cbn [isValid] in H.
  apply Nat.leb_gt in Hlen. rewrite Hlen in H. discriminate H.
Qed.

Lemma short_segment_invalidates_string_witness :
  isStringValid
    [mkProduct (js "Cat") (js "Name") (Dec false 1 0) (Dec false 599 (-2)) [] [] true;
     mkProduct [] [] zero zero [] [] false] = false.
Proof.
  apply (short_segment_invalidates_string (js "Cat;Name;1;5.99,") [] [] []).
  - discriminate.
  - reflexivity.
  - right. left. reflexivity.
  - cbn. lia.
Defined.

(** ** What a product of the result guarantees *)

Lemma or_zero_not_NaN (x : jsnum) : isNaN (or_zero x) = false.
Proof.
  unfold or_zero. destruct x as [| neg | neg m e]; cbn [truthy_num]; try reflexivity.
  destruct (negb (rounds_to_zero m e)); reflexivity.
Qed.

Lemma valid_parsed_item (segment : jsstring) :
  isValid (parsed segment) = true -> trim (item (parsed segment)) <> [].
Proof.
  unfold parsed. cbn [isValid item]. intros H.
  apply andb_prop in H as [H _]. apply andb_prop in H as [_ H].
  apply hasValidItem_spec in H as (name & -> & Hname).
  destruct name as [| c r]; [exact Hname |]. exact Hname.
Qed.

Lemma valid_parsed_price (segment : jsstring) :
  isValid (parsed segment) = true -> non_negative_number (price (parsed segment)).
Proof.
  unfold parsed. cbn [isValid price]. intros H.
  apply andb_prop in H as [_ H]. now apply isValidPrice_spec.
Qed.

Lemma validated_cases (s : jsstring) :
  (trim s = [] /\ validated s = [])
  \/ (trim s <> []
      /\ existsb symptom (map parsed (split (unit_of ",") s)) = true
      /\ validated s = map invalidate (map parsed (split (unit_of ",") s)))
  \/ (trim s <> []
      /\ existsb symptom (map parsed (split (unit_of ",") s)) = false
      /\ validated s = map parsed (split (unit_of ",") s)).
Proof.
  unfold validated. destruct (trim s) as [| c r] eqn:Ht; cbn [is_nil].
  - left. split; reflexivity.
  - right. cbv zeta.
    destruct (existsb symptom (map parsed (split (unit_of ",") s))) eqn:E;
      [left | right]; (split; [discriminate | split; reflexivity]).
Qed.

(** X5. A product that the validator returns as valid has an item that is
    not blank and a price that is a number and not negative, its
    quantity is not [NaN], and no product of the same result has a
    category that matches one of the two patterns. *)
Theorem valid_product_is_sound
  (s : jsstring) (out out' : console) (products : list Product) (p : Product) :
  run (validateProductString s) out = inr (products, out') ->
  In p products ->
  isValid p = true ->
  trim (item p) <> []
  /\ non_negative_number (price p)
  /\ isNaN (quantity p) = false
  /\ Forall (fun q => ~ FractionPattern (trim (category q))
                      /\ ~ DigitsPattern (trim (category q))) products.
Proof.
  rewrite validateProductString_console. intros [= <- _] Hin Hv.
  destruct (validated_cases s) as [[_ E] | [(_ & _ & E) | (_ & Hsym & E)]];
    rewrite E in *.
  - destruct Hin.
  - apply in_map_iff in Hin as (q & <- & _).
    rewrite invalidate_isValid in Hv. discriminate.
  - apply in_map_iff in Hin as (segment & <- & _).
    split; [now apply valid_parsed_item |].
    split; [now apply valid_parsed_price |].
    split; [apply or_zero_not_NaN |].
    apply Forall_forall. intros q Hq. apply symptom_false_iff.
    destruct (symptom q) eqn:Hs; [| reflexivity].
    assert (existsb symptom (map parsed (split (unit_of ",") s)) = true)
      by (apply existsb_exists; eauto).
    congruence.
Qed.

Lemma valid_product_is_sound_witness :
  let p := mkProduct (js "Cat") (js "Name") (Dec false 1 0) (Dec false 599 (-2))
             [] [] true in
  trim (item p) <> []
  /\ non_negative_number (price p)
  /\ isNaN (quantity p) = false
  /\ Forall (fun q => ~ FractionPattern (trim (category q))
                      /\ ~ DigitsPattern (trim (category q))) [p].
Proof.
  apply (valid_product_is_sound (js "Cat;Name;1;5.99") [] []).
  - reflexivity.
  - left. reflexivity.
  - reflexivity.
Defined.

(** X6. The validator works segment by segment: the i-th product of the
    result is what [parseProduct] makes of the i-th segment, except
    that its validity flag may have been lowered. *)
Theorem products_follow_segments
  (s : jsstring) (out out' : console) (products : list Product) :
  trim s <> [] ->
  run (validateProductString s) out = inr (products, out') ->
  Forall2 (fun segment p =>
             exists q, run (parseProduct segment) out = inr (q, out)
                       /\ demoted_only q p)
          (split (unit_of ",") s) products.
Proof.
  intros Hs. rewrite validateProductString_console. intros [= <- _].
  unfold validated. apply is_nil_false in Hs. rewrite Hs. cbv zeta.
  generalize (existsb symptom (map parsed (split (unit_of ",") s))).
  intros flag.
  induction (split (unit_of ",") s) as [| segment rest IH].
  - destruct flag; constructor.
  - assert (Hhead : exists q, run (parseProduct segment) out = inr (q, out)
                              /\ demoted_only q (if flag then invalidate (parsed segment)
                                                 else parsed segment)).
    { exists (parsed segment). split; [apply parseProduct_silent |].
      destruct flag; [apply invalidate_demoted_only | apply demoted_only_refl]. }
    destruct flag; cbn [cascade map] in *; constructor; assumption.
Qed.

Lemma products_follow_segments_witness :
  Forall2 (fun segment p =>
             exists q, run (parseProduct segment) [] = inr (q, [])
                       /\ demoted_only q p)
          (split (unit_of ",") (js "Cat;Name;1;3,50"))
          [mkProduct (js "Cat") (js "Name") (Dec false 1 0) (Dec false 3 0) [] [] false;
           mkProduct (js "50") [] zero zero [] [] false].
Proof.
  apply (products_follow_segments (js "Cat;Name;1;3,50") [] [NumericCategory 2]).
  - discriminate.
  - reflexivity.
Defined.

Lemma validated_length (s : jsstring) :
  length (validated s)
  = if is_nil (trim s) then 0%nat else S (count_occ N.eq_dec s (unit_of ",")).
Proof.
  unfold validated. destruct (is_nil (trim s)); [reflexivity |]. cbv zeta.
  now rewrite cascade_length, length_map, split_length.
Qed.

(** X7. The validator returns no product exactly for a blank input, so the
    "Parsed Products" section is shown for every other input. *)
Theorem results_shown_iff_not_blank
  (s : jsstring) (out out' : console) (products : list Product) :
  run (validateProductString s) out = inr (products, out') ->
  (showsResults products = true <-> trim s <> [])
  /\ (products = [] <-> trim s = []).
Proof.
  rewrite validateProductString_console. intros [= <- _].
  unfold showsResults. rewrite <- length_zero_iff_nil, validated_length.
  destruct (trim s) as [| c r]; cbn [is_nil Nat.ltb Nat.leb];
    intuition congruence.
Qed.

Lemma results_shown_iff_not_blank_witness :
  (showsResults [] = true <-> trim (js "  ") <> [])
  /\ (@nil Product = [] <-> trim (js "  ") = []).
Proof.
  apply (results_shown_iff_not_blank (js "  ") [] []).
  reflexivity.
Defined.

(** ** The notice of the component and the first loop *)

(** The pattern of the notice is the union of the two patterns of the
    first loop. *)
Lemma test_notice_union (t : jsstring) :
  test_notice t = test_fraction t || test_digits t.
Proof.
  unfold test_notice, test_fraction, test_digits.
  destruct (span_digits_spec t) as (Heq & Hds & Hrest).
  destruct (span_digits t) as [ds rest]. cbn [fst snd] in *. subst t.
  destruct ds as [| d ds'].
  - cbn [is_nil negb andb app orb].
    destruct rest as [| c fs]; [reflexivity |].
    cbn [is_nil negb forallb andb]. apply is_digit_false in Hrest.
    now rewrite Hrest.
  - cbn [is_nil negb andb]. rewrite forallb_app.
    apply all_digits_spec in Hds. rewrite Hds. cbn [andb].
    destruct rest as [| c fs]; [reflexivity |].
    cbn [forallb]. apply is_digit_false in Hrest. rewrite Hrest.
    cbn [andb]. now rewrite orb_false_r.
Qed.

Lemma notice_condition_is_symptom (products : list Product) :
  existsb (fun p => truthy (Some (category p)) && test_notice (trim (category p)))
          products
  = existsb symptom products.
Proof.
  induction products as [| p r IH]; [reflexivity |]. cbn [existsb].
  rewrite IH. unfold symptom. now rewrite test_notice_union.
Qed.

Lemma filter_nil_iff {A : Type} (f : A -> bool) (l : list A) :
  filter f l = [] <-> existsb f l = false.
Proof.
  induction l as [| a r IH]; cbn [filter existsb]; [tauto |].
  destruct (f a); cbn [orb]; [split; discriminate | exact IH].
Qed.

Lemma showsCascadeNotice_validated (s : jsstring) :
  showsCascadeNotice (isStringValid (validated s)) (validated s)
  = existsb symptom (validated s).
Proof.
  unfold showsCascadeNotice. rewrite notice_condition_is_symptom.
  destruct (existsb symptom (validated s)) eqn:E; [| apply andb_false_r].
  rewrite andb_true_r. apply negb_true_iff.
  revert E. unfold validated. destruct (is_nil (trim s)); [discriminate |].
  cbv zeta. rewrite existsb_symptom_cascade. intros E. rewrite E.
  rewrite <- E at 1. rewrite isStringValid_cascade.
  apply not_true_is_false. intros H. rewrite forallb_forall in H.
  apply existsb_exists in E as (p & Hin & Hp).
  specialize (H p Hin). rewrite Hp, andb_false_r in H. discriminate.
Qed.

(** X8. For the result of a validation the component shows the "Cascading
    Parse Error Detected" notice exactly when a product of the result
    has a trimmed category that matches one of the two patterns of the
    first loop, which is exactly when the validator wrote a warning on
    the console. *)
Theorem notice_iff_warning
  (s : jsstring) (out out' : console) (products : list Product) :
  run (validateProductString s) out = inr (products, out') ->
  (showsCascadeNotice (isStringValid products) products = true
   <-> exists p, In p products
                 /\ (FractionPattern (trim (category p))
                     \/ DigitsPattern (trim (category p))))
  /\ (showsCascadeNotice (isStringValid products) products = true
      <-> out' <> out).
Proof.
  rewrite validateProductString_console. intros [= <- <-].
  rewrite showsCascadeNotice_validated. split.
  - rewrite existsb_exists. split.
    + intros (p & Hin & Hp). exists p. split; [exact Hin |].
      destruct (test_fraction (trim (category p))) eqn:Ef.
      * left. now apply test_fraction_spec.
      * right. apply test_digits_spec. unfold symptom in Hp.
        rewrite Ef in Hp. cbn [orb] in Hp. now apply andb_prop in Hp.
    + intros (p & Hin & Hp). exists p. split; [exact Hin |].
      now apply symptom_of_patterns.
  - assert (Hw : forall w : console, out ++ w <> out <-> w <> []).
    { intros w. split; intros H E; apply H.
      - subst w. apply app_nil_r.
      - rewrite <- (app_nil_r out) in E at 2. now apply app_inv_head in E. }
    rewrite Hw. unfold validated.
    destruct (is_nil (trim s)); [cbn; split; congruence |]. cbv zeta.
    rewrite existsb_symptom_cascade.
    change (split 44 s) with (split (unit_of ",") s).
    destruct (existsb symptom (map parsed (split (unit_of ",") s))) eqn:E.
    + split; [intros _ | reflexivity]. intros Hn.
      apply (f_equal (@length warning)) in Hn.
      rewrite warnings_from_length in Hn.
      apply length_zero_iff_nil, filter_nil_iff in Hn. congruence.
    + split; [discriminate |]. intros Hn. exfalso. apply Hn.
      apply length_zero_iff_nil. rewrite warnings_from_length.
      now apply length_zero_iff_nil, filter_nil_iff.
Qed.

Lemma notice_iff_warning_witness :
  let products :=
    [mkProduct (js "Cat") (js "Name") (Dec false 1 0) (Dec false 3 0) [] [] false;
     mkProduct (js "50") [] zero zero [] [] false] in
  (showsCascadeNotice (isStringValid products) products = true
   <-> exists p, In p products
                 /\ (FractionPattern (trim (category p))
                     \/ DigitsPattern (trim (category p))))
  /\ (showsCascadeNotice (isStringValid products) products = true
      <-> [NumericCategory 2] <> []).
Proof.
  apply (notice_iff_warning (js "Cat;Name;1;3,50") [] [NumericCategory 2]).
  reflexivity.
Defined.

(** ** The segment parser at its edges *)

(** X9. A segment without [;] is taken as a category alone: every other
    field gets its default and the product is invalid. *)
Theorem segment_without_semicolon (segment : jsstring) (out : console) :
  includes (unit_of ";") segment = false ->
  run (parseProduct segment) out
  = inr (mkProduct segment [] zero zero [] [] false, out).
Proof.
  intros H. rewrite parseProduct_silent. unfold parsed.
  rewrite (split_without_sep _ _ H).
  destruct segment; reflexivity.
Qed.

Lemma segment_without_semicolon_witness :
  run (parseProduct (js "50")) []
  = inr (mkProduct (js "50") [] zero zero [] [] false, []).
Proof.
  apply (segment_without_semicolon (js "50") []). reflexivity.
Defined.

(** X10. Fields after the sixth are ignored: cutting them off does not
    change the product. *)
Theorem fields_beyond_sixth_ignored (segment extra : jsstring) (out : console) :
  (6 <= length (split (unit_of ";") segment))%nat ->
  run (parseProduct (segment ++ unit_of ";" :: extra)) out
  = run (parseProduct segment) out.
Proof.
  intros Hlen. rewrite !parseProduct_silent. do 2 f_equal.
  unfold parsed. rewrite split_app.
  rewrite !nth_error_app1 by lia.
  rewrite length_app.
  replace (4 <=? length (split (unit_of ";") segment)
                + length (split (unit_of ";") extra))%nat with true
    by (symmetry; apply Nat.leb_le; lia).
  replace (4 <=? length (split (unit_of ";") segment))%nat with true
    by (symmetry; apply Nat.leb_le; lia).
  reflexivity.
Qed.

Lemma fields_beyond_sixth_ignored_witness :
  run (parseProduct (js "c;i;1;2;a|b;x|y" ++ unit_of ";" :: js "more;and more")) []
  = run (parseProduct (js "c;i;1;2;a|b;x|y")) [].
Proof.
  apply (fields_beyond_sixth_ignored (js "c;i;1;2;a|b;x|y") (js "more;and more") []).
  cbn. lia.
Defined.

(** X11. On the way through [validateProductString] the substitution of
    [.] for [,] in [parseProduct] never applies: the price of every
    product is read from the fourth field as it stands. *)
Theorem price_read_without_substitution
  (s segment : jsstring) (out : console) :
  In segment (split (unit_of ",") s) ->
  exists p,
    run (parseProduct segment) out = inr (p, out)
    /\ price p
       = parseFloat (or_else (nth_error (split (unit_of ";") segment) 3) (js "0")).
Proof.
  intros Hseg. exists (parsed segment). split; [apply parseProduct_silent |].
  unfold parsed. cbn [price].
  destruct (nth_error (split (unit_of ";") segment) 3) as [field |] eqn:E;
    [| reflexivity].
  cbn [option_map]. apply nth_error_In in E.
  now rewrite (comma_substitution_idle s segment field).
Qed.

Lemma price_read_without_substitution_witness :
  exists p,
    run (parseProduct (js "Cat;Name;1;3")) [] = inr (p, [])
    /\ price p
       = parseFloat (or_else (nth_error (split (unit_of ";") (js "Cat;Name;1;3")) 3)
                             (js "0")).
Proof.
  apply (price_read_without_substitution (js "Cat;Name;1;3,50") (js "Cat;Name;1;3") []).
  left. reflexivity.
Defined.

(** ** The attribute lists *)

Lemma includes_In (sep : N) (s : jsstring) :
  includes sep s = true <-> In sep s.
Proof.
  unfold includes. rewrite existsb_exists. split.
  - intros (c & Hin & Hc). apply N.eqb_eq in Hc. now subst.
  - intros H. exists sep. split; [exact H | apply N.eqb_refl].
Qed.

Lemma includes_not_In (sep : N) (s : jsstring) :
  includes sep s = false <-> ~ In sep s.
Proof.
  rewrite <- includes_In. destruct (includes sep s); split; congruence.
Qed.

(** X12. The normalizer never returns a single attribute: it returns none
    for a field without [|] (or no field), and one more than there are
    [|] otherwise. *)
Theorem normalizer_none_or_several (raw : option jsstring) (out : console) :
  exists attrs,
    run (normalizeAttributes raw) out = inr (attrs, out)
    /\ length attrs <> 1%nat
    /\ length attrs
       = match raw with
         | Some field =>
             if includes (unit_of "|") field
             then S (count_occ N.eq_dec field (unit_of "|"))
             else 0%nat
         | None => 0%nat
         end.
Proof.
  exists (attributes raw). split; [apply normalizeAttributes_silent |].
  destruct raw as [field |]; cbn [attributes]; [| split; [discriminate | reflexivity]].
  destruct (includes (unit_of "|") field) eqn:E;
    [| split; [discriminate | reflexivity]].
  rewrite length_map, split_length. split; [| reflexivity].
  apply includes_In in E. apply (count_occ_In N.eq_dec) in E. lia.
Qed.

(** ** No delimiter survives in a text field *)

Lemma split_pieces_incl (sep : N) (s piece : jsstring) :
  In piece (split sep s) -> incl piece s.
Proof.
  revert piece. induction s as [| c r IH]; cbn [split]; intros piece H.
  - destruct H as [<- | []]. apply incl_refl.
  - destruct (c =? sep).
    + destruct H as [<- | H]; [apply incl_nil_l |].
      apply incl_tl. now apply IH.
    + destruct (split sep r) as [| p ps] eqn:E.
      * now destruct (split_not_nil sep r).
      * destruct H as [<- | H].
        -- apply incl_cons; [now left |]. apply incl_tl. apply IH. now left.
        -- apply incl_tl. apply IH. now right.
Qed.

Lemma before_first_incl (sep : N) (s : jsstring) : incl (before_first sep s) s.
Proof.
  induction s as [| c r IH]; cbn [before_first]; [apply incl_refl |].
  destruct (c =? sep); [apply incl_nil_l |].
  apply incl_cons; [now left | now apply incl_tl].
Qed.

Lemma before_first_clean (sep : N) (s : jsstring) : ~ In sep (before_first sep s).
Proof.
  induction s as [| c r IH]; cbn [before_first]; [tauto |].
  destruct (N.eqb_spec c sep) as [-> | Hne]; [tauto |].
  intros [H | H]; [congruence | contradiction].
Qed.

Lemma after_first_incl (sep : N) (s r : jsstring) :
  after_first sep s = Some r -> incl r s.
Proof.
  induction s as [| c t IH]; cbn [after_first]; [discriminate |].
  destruct (c =? sep).
  - intros [= ->]. apply incl_tl, incl_refl.
  - intros H. apply incl_tl. now apply IH.
Qed.

Lemma free_of_incl (seps : list N) (s t : jsstring) :
  incl t s -> free_of seps s -> free_of seps t.
Proof.
  unfold free_of. rewrite !Forall_forall. intros Hincl H c Hc. apply H, Hincl, Hc.
Qed.

Lemma free_of_cons (sep : N) (seps : list N) (s : jsstring) :
  ~ In sep s -> free_of seps s -> free_of (sep :: seps) s.
Proof.
  unfold free_of. rewrite !Forall_forall. intros Hsep H c Hc [<- | Hin].
  - contradiction.
  - now apply (H c Hc).
Qed.

Lemma free_of_nil (s : jsstring) : free_of [] s.
Proof. apply Forall_forall. intros c _ []. Qed.

(** A piece of a split is free of the separator and of whatever the
    whole text is free of. *)
Lemma split_piece_free (sep : N) (seps : list N) (s piece : jsstring) :
  In piece (split sep s) -> free_of seps s -> free_of (sep :: seps) piece.
Proof.
  intros Hin Hs. apply free_of_cons.
  - apply includes_not_In. eapply split_pieces_clean. eassumption.
  - eapply free_of_incl; [| eassumption]. eapply split_pieces_incl. eassumption.
Qed.

Lemma or_else_field_free (seps : list N) (parts : list jsstring) (i : nat) :
  Forall (free_of seps) parts -> free_of seps (or_else (nth_error parts i) []).
Proof.
  intros H. destruct (nth_error parts i) as [[| c r] |] eqn:E; cbn [or_else].
  - constructor.
  - apply nth_error_In in E. rewrite Forall_forall in H. exact (H _ E).
  - constructor.
Qed.

Lemma attribute_of_free (seps : list N) (piece : jsstring) :
  free_of seps piece ->
  free_of (unit_of "=" :: seps) (attr_key (attribute_of piece))
  /\ value_free_of (unit_of "=" :: seps) (attr_value (attribute_of piece)).
Proof.
  intros H. rewrite attribute_of_two_parts. unfold entry_of_two_parts.
  cbn [attr_key attr_value]. split.
  - apply free_of_cons; [apply before_first_clean |].
    eapply free_of_incl; [apply before_first_incl | exact H].
  - destruct (after_first (unit_of "=") piece) as [r |] eqn:E; cbn; [| exact I].
    apply free_of_cons; [apply before_first_clean |].
    eapply free_of_incl; [| exact H].
    eapply incl_tran; [apply before_first_incl | eapply after_first_incl; eassumption].
Qed.

Lemma attributes_free (seps : list N) (parts : list jsstring) (i : nat) :
  Forall (free_of seps) parts ->
  Forall (fun a => free_of (unit_of "=" :: unit_of "|" :: seps) (attr_key a)
                   /\ value_free_of (unit_of "=" :: unit_of "|" :: seps) (attr_value a))
         (attributes (nth_error parts i)).
Proof.
  intros H. destruct (nth_error parts i) as [field |] eqn:E; cbn [attributes];
    [| constructor].
  destruct (includes (unit_of "|") field); [| constructor].
  apply Forall_forall. intros a Ha. apply in_map_iff in Ha as (piece & <- & Hp).
  apply attribute_of_free. eapply split_piece_free; [eassumption |].
  apply nth_error_In in E. rewrite Forall_forall in H. exact (H _ E).
Qed.

Lemma parsed_texts_free (seps : list N) (segment : jsstring) :
  free_of seps segment ->
  let all := unit_of "=" :: unit_of "|" :: unit_of ";" :: seps in
  free_of (unit_of ";" :: seps) (category (parsed segment))
  /\ free_of (unit_of ";" :: seps) (item (parsed segment))
  /\ Forall (fun a => free_of all (attr_key a) /\ value_free_of all (attr_value a))
            (events (parsed segment) ++ evars (parsed segment)).
Proof.
  intros Hseg all.
  assert (Hparts : Forall (free_of (unit_of ";" :: seps)) (split (unit_of ";") segment)).
  { apply Forall_forall. intros field Hf. eapply split_piece_free; eassumption. }
  unfold parsed. cbn [category item events evars].
  split; [now apply or_else_field_free |].
  split; [now apply or_else_field_free |].
  apply Forall_app. split; now apply attributes_free.
Qed.

Lemma texts_free_invalidate (p : Product) :
  category (invalidate p) = category p /\ item (invalidate p) = item p
  /\ events (invalidate p) = events p /\ evars (invalidate p) = evars p.
Proof. unfold invalidate. destruct (isValid p); repeat split. Qed.

(** Where a product of the result comes from. *)
Lemma validated_origin (s : jsstring) (p : Product) :
  In p (validated s) ->
  exists segment,
    In segment (split (unit_of ",") s)
    /\ (p = parsed segment \/ p = invalidate (parsed segment)).
Proof.
  intros Hin.
  destruct (validated_cases s) as [[_ E] | [(_ & _ & E) | (_ & _ & E)]];
    rewrite E in Hin.
  - destruct Hin.
  - apply in_map_iff in Hin as (q & <- & Hq).
    apply in_map_iff in Hq as (segment & <- & Hseg). eauto.
  - apply in_map_iff in Hin as (segment & <- & Hseg). eauto.
Qed.

(** X13. No delimiter survives in a text field of the result: the category
    and the item of every product hold neither [,] nor [;], and the
    keys and values of its events and eVars hold none of [=], [|], [;]
    and [,]. *)
Theorem result_texts_free_of_delimiters
  (s : jsstring) (out out' : console) (products : list Product) (p : Product) :
  run (validateProductString s) out = inr (products, out') ->
  In p products ->
  let fields := [unit_of ";"; unit_of ","] in
  let all := [unit_of "="; unit_of "|"; unit_of ";"; unit_of ","] in
  free_of fields (category p)
  /\ free_of fields (item p)
  /\ Forall (fun a => free_of all (attr_key a) /\ value_free_of all (attr_value a))
            (events p ++ evars p).
Proof.
  rewrite validateProductString_console. intros [= <- _] Hin. cbv zeta.
  destruct (validated_origin s p Hin) as (segment & Hseg & Hp).
  assert (Hpre : exists segment0,
             In segment0 (split (unit_of ",") s)
             /\ category p = category (parsed segment0)
             /\ item p = item (parsed segment0)
             /\ events p = events (parsed segment0)
             /\ evars p = evars (parsed segment0)).
  { exists segment. split; [exact Hseg |].
    destruct Hp as [-> | ->]; [repeat split | apply texts_free_invalidate]. }
  clear segment Hseg Hp.
  destruct Hpre as (segment & Hseg & -> & -> & -> & ->).
  apply (parsed_texts_free [unit_of ","] segment).
  apply (split_piece_free (unit_of ",") [] s segment Hseg (free_of_nil s)).
Qed.

Lemma result_texts_free_of_delimiters_witness :
  let p := mkProduct (js "c") (js "i") (Dec false 1 0) (Dec false 2 0)
             [mkAttribute (js "a") (Some (js "1")); mkAttribute (js "b") None] []
             true in
  let fields := [unit_of ";"; unit_of ","] in
  let all := [unit_of "="; unit_of "|"; unit_of ";"; unit_of ","] in
  free_of fields (category p)
  /\ free_of fields (item p)
  /\ Forall (fun a => free_of all (attr_key a) /\ value_free_of all (attr_value a))
            (events p ++ evars p).
Proof.
  apply (result_texts_free_of_delimiters (js "c;i;1;2;a=1=x|b") [] []
           [mkProduct (js "c") (js "i") (Dec false 1 0) (Dec false 2 0)
              [mkAttribute (js "a") (Some (js "1")); mkAttribute (js "b") None] []
              true]).
  - reflexivity.
  - left. reflexivity.
Defined.

(** ** What the component shows for a product *)



(** X15. The item cell shows "Missing (Required)" in place of an empty item
    only on an invalid product, and it shows the item itself for every
    valid product. *)
Theorem item_placeholder_only_when_invalid
  (s : jsstring) (out out' : console) (products : list Product) (p : Product) :
  run (validateProductString s) out = inr (products, out') ->
  In p products ->
  (item p = [] -> itemCell p = js "Missing (Required)" /\ isValid p = false)
  /\ (isValid p = true -> itemCell p = item p).
Proof.
  rewrite validateProductString_console. intros [= <- _] Hin.
  assert (Hitem : item p = [] -> isValid p = false).
  { destruct (validated_origin s p Hin) as (segment & _ & [-> | ->]).
    - intros Hi. destruct (isValid (parsed segment)) eqn:Hv; [| reflexivity].
      apply valid_parsed_item in Hv. rewrite Hi in Hv. now destruct Hv.
    - intros _. apply invalidate_isValid. }
  unfold itemCell. split.
  - intros Hi. split; [now rewrite Hi | now apply Hitem].
  - intros Hv. destruct (item p) as [| c r]; [| reflexivity].
    rewrite Hitem in Hv by reflexivity. discriminate.
Qed.

Lemma item_placeholder_only_when_invalid_witness :
  let p := mkProduct (js "Cat") [] (Dec false 1 0) (Dec false 500 (-2)) [] [] false in
  (item p = [] -> itemCell p = js "Missing (Required)" /\ isValid p = false)
  /\ (isValid p = true -> itemCell p = item p).
Proof.
  apply (item_placeholder_only_when_invalid (js "Cat;;1;5.00") [] []
           [mkProduct (js "Cat") [] (Dec false 1 0) (Dec false 500 (-2)) [] [] false]).
  - reflexivity.
  - left. reflexivity.
Defined.

(** X16. On a product of a validation result the "Parsing Error" badge
    needs a point: it shows only for a category that starts with one or
    more digits, a [.] and a digit. The comma of its pattern never
    applies, and a category of digits only, as a collided price leaves
    it, does not show the badge. *)
Theorem badge_needs_a_point
  (s : jsstring) (out out' : console) (products : list Product) (p : Product) :
  run (validateProductString s) out = inr (products, out') ->
  In p products ->
  showsParsingError p = true ->
  exists ds d rest,
    category p = ds ++ unit_of "." :: d :: rest
    /\ ds <> [] /\ Forall Digit ds /\ Digit d.
Proof.
  rewrite validateProductString_console. intros [= <- _] Hin Hbadge.
  assert (Hfree : free_of [unit_of ";"; unit_of ","] (category p)).
  { destruct (validated_origin s p Hin) as (segment & Hseg & Hp).
    assert (Hc : category p = category (parsed segment)).
    { destruct Hp as [-> | ->]; [reflexivity | apply invalidate_category]. }
    rewrite Hc.
    apply (parsed_texts_free [unit_of ","] segment).
    apply (split_piece_free (unit_of ",") [] s segment Hseg (free_of_nil s)). }
  unfold showsParsingError in Hbadge. apply andb_prop in Hbadge as [_ Hbadge].
  unfold test_badge in Hbadge.
  destruct (span_digits_spec (category p)) as (Heq & Hds & _).
  destruct (span_digits (category p)) as [ds tail]. cbn [fst snd] in *.
  apply andb_prop in Hbadge as [Hne Htail].
  destruct tail as [| c [| d rest]]; try discriminate.
  apply andb_prop in Htail as [Hc Hd].
  exists ds, d, rest. rewrite Heq in *.
  split; [| split; [now apply is_nil_false, negb_true_iff
                   | split; [exact Hds | now apply is_digit_spec]]].
  apply orb_prop in Hc as [Hc | Hc]; apply N.eqb_eq in Hc; subst c; [reflexivity |].
  exfalso. unfold free_of in Hfree. rewrite Forall_forall in Hfree.
  apply (Hfree 44); [apply in_or_app; right; now left | right; now left].
Qed.

Lemma badge_needs_a_point_witness :
  exists ds d rest,
    js "234.56" = ds ++ unit_of "." :: d :: rest
    /\ ds <> [] /\ Forall Digit ds /\ Digit d.
Proof.
  apply (badge_needs_a_point (js "Cat;Name;1;1,234.56") [] [CascadingAt 2]
           [mkProduct (js "Cat") (js "Name") (Dec false 1 0) (Dec false 1 0) [] [] false;
            mkProduct (js "234.56") [] zero zero [] [] false]
           (mkProduct (js "234.56") [] zero zero [] [] false)).
  - reflexivity.
  - right. left. reflexivity.
  - reflexivity.
Defined.

(** ** The price and the quantity *)

Lemma strip_prefix_app (p r : jsstring) : strip_prefix p (p ++ r) = Some r.
Proof.
  induction p as [| c p IH]; [destruct r; reflexivity |].
  cbn [app strip_prefix]. now rewrite N.eqb_refl.
Qed.

Lemma isValid_of_price (segment : jsstring) :
  ge_zero (price (parsed segment)) = false \/ isNaN (price (parsed segment)) = true ->
  isValid (parsed segment) = false.
Proof.
  unfold parsed. cbn [price isValid]. intros [H | H]; rewrite H;
    rewrite ?andb_false_r; reflexivity.
Qed.

(** X17. A price written as a minus sign and a decimal literal that does
    not round to zero makes the product invalid: the price is the
    negated number, whatever text without digits follows it. *)
Theorem negative_price_is_invalid
  (segment num garbage : jsstring) (m : N) (e : Z) (out : console) :
  nth_error (split (unit_of ";") segment) 3 = Some (unit_of "-" :: num ++ garbage) ->
  UnsignedDecimal num (Dec false m e) ->
  rounds_to_zero m e = false ->
  digit_free garbage ->
  exists p,
    run (parseProduct segment) out = inr (p, out)
    /\ price p = Dec true m e
    /\ isValid p = false.
Proof.
  intros Hfield Hnum Hround Hg.
  exists (parsed segment). split; [apply parseProduct_silent |].
  assert (Hprice : price (parsed segment) = Dec true m e).
  { unfold parsed. cbn [price]. rewrite Hfield. cbn [option_map or_else replace].
    change (unit_of "-" =? unit_of ",") with false. cbv iota.
    rewrite replace_past_comma_free
      by (eapply UnsignedDecimal_comma_free; eassumption).
    cbn [or_else]. unfold parseFloat. cbn [trimStart].
    change (is_ws (unit_of "-")) with false. cbv iota. cbn [scan_decimal].
    change (unit_of "-" =? 43) with false. change (unit_of "-" =? 45) with true.
    cbv iota.
    destruct (scan_unsigned_literal num _ _ Hnum (replace_digit_free _ Hg))
      as [rest ->].
    reflexivity. }
  split; [exact Hprice |]. apply isValid_of_price. left.
  rewrite Hprice. cbn [ge_zero negb orb]. exact Hround.
Qed.

Lemma negative_price_is_invalid_witness :
  exists p,
    run (parseProduct (js "Cat;Name;1;-5 EUR")) [] = inr (p, [])
    /\ price p = Dec true 5 0
    /\ isValid p = false.
Proof.
  apply (negative_price_is_invalid (js "Cat;Name;1;-5 EUR") (js "5") (js " EUR") 5 0 []).
  - reflexivity.
  - apply (UD_integer (js "5") [] 0).
    + split; [discriminate |]. repeat constructor; cbn; lia.
    + constructor.
  - reflexivity.
  - repeat constructor; unfold Digit; cbn; lia.
Defined.

(** X18. A price that starts with anything but white space, a digit, a
    point, a comma, a sign or the [I] of [Infinity] is not a number:
    the price is [NaN] and the product is invalid. *)
Theorem unparseable_price_is_invalid
  (segment rest : jsstring) (c : N) (out : console) :
  nth_error (split (unit_of ";") segment) 3 = Some (c :: rest) ->
  is_ws c = false ->
  ~ Digit c ->
  ~ In c [unit_of "."; unit_of ","; unit_of "+"; unit_of "-"; unit_of "I"] ->
  exists p,
    run (parseProduct segment) out = inr (p, out)
    /\ price p = NaN
    /\ isValid p = false.
Proof.
  intros Hfield Hws Hdigit Hother.
  exists (parsed segment). split; [apply parseProduct_silent |].
  assert (Hne : forall x, In x [unit_of "."; unit_of ","; unit_of "+";
                                unit_of "-"; unit_of "I"] -> (c =? x) = false).
  { intros x Hx. apply N.eqb_neq. intros ->. contradiction. }
  assert (Hprice : price (parsed segment) = NaN).
  { unfold parsed. cbn [price]. rewrite Hfield. cbn [option_map replace].
    rewrite (Hne (unit_of ",")) by (cbn; tauto). cbn [or_else].
    unfold parseFloat. cbn [trimStart]. rewrite Hws. cbn [scan_decimal].
    change 43 with (unit_of "+"). change 45 with (unit_of "-").
    rewrite (Hne (unit_of "+")), (Hne (unit_of "-")) by (cbn; tauto).
    unfold scan_unsigned. change (js "Infinity") with (unit_of "I" :: js "nfinity").
    cbn [strip_prefix]. rewrite N.eqb_sym, (Hne (unit_of "I")) by (cbn; tauto).
    cbn [span_digits]. apply is_digit_false in Hdigit. rewrite Hdigit.
    change 46 with (unit_of "."). rewrite (Hne (unit_of ".")) by (cbn; tauto).
    reflexivity. }
  split; [exact Hprice |]. apply isValid_of_price. right. now rewrite Hprice.
Qed.

Lemma unparseable_price_is_invalid_witness :
  exists p,
    run (parseProduct (js "Cat;Name;1;EUR 5")) [] = inr (p, [])
    /\ price p = NaN
    /\ isValid p = false.
Proof.
  apply (unparseable_price_is_invalid (js "Cat;Name;1;EUR 5") (js "UR 5")
           (unit_of "E") []).
  - reflexivity.
  - reflexivity.
  - unfold Digit. cbn. lia.
  - cbn. intros [H | [H | [H | [H | [H | []]]]]]; discriminate H.
Defined.

(** X19. The price [Infinity] is accepted: with four fields and an item
    that is not blank, a price field that starts with [Infinity] gives
    a valid product whose price is infinite. *)
Theorem infinite_price_is_accepted
  (segment category_ name quantity_ rest : jsstring) (more : list jsstring)
  (out : console) :
  split (unit_of ";") segment
  = category_ :: name :: quantity_ :: (js "Infinity" ++ rest) :: more ->
  trim name <> [] ->
  exists p,
    run (parseProduct segment) out = inr (p, out)
    /\ price p = Infinity false
    /\ isValid p = true.
Proof.
  intros Hparts Hname.
  exists (parsed segment). split; [apply parseProduct_silent |].
  assert (Hprice : price (parsed segment) = Infinity false).
  { unfold parsed. cbn [price]. rewrite Hparts. cbn [nth_error option_map].
    rewrite replace_past_comma_free
      by (repeat constructor; discriminate).
    change (js "Infinity" ++ replace (unit_of ",") (unit_of ".") rest)
      with (unit_of "I" :: js "nfinity" ++ replace (unit_of ",") (unit_of ".") rest).
    cbn [or_else]. unfold parseFloat. cbn [trimStart].
    change (is_ws (unit_of "I")) with false. cbv iota. cbn [scan_decimal].
    change (unit_of "I" =? 43) with false. change (unit_of "I" =? 45) with false.
    cbv iota. unfold scan_unsigned.
    change (unit_of "I" :: js "nfinity" ++ replace (unit_of ",") (unit_of ".") rest)
      with (js "Infinity" ++ replace (unit_of ",") (unit_of ".") rest).
    now rewrite strip_prefix_app. }
  split; [exact Hprice |].
  revert Hprice. unfold parsed. cbn [price isValid]. intros ->.
  rewrite Hparts. cbn [nth_error length option_map Nat.leb isNaN ge_zero negb andb].
  destruct (trim name); [now destruct Hname | reflexivity].
Qed.

Lemma infinite_price_is_accepted_witness :
  exists p,
    run (parseProduct (js "Cat;Name;1;Infinity")) [] = inr (p, [])
    /\ price p = Infinity false
    /\ isValid p = true.
Proof.
  apply (infinite_price_is_accepted (js "Cat;Name;1;Infinity")
           (js "Cat") (js "Name") (js "1") [] [] []).
  - reflexivity.
  - discriminate.
Defined.

(** X20. The quantity is never validated: two segments that differ in their
    third field only give products that differ in their quantity
    only. *)
Theorem quantity_is_not_validated
  (segment1 segment2 category_ name quantity1 quantity2 : jsstring)
  (rest : list jsstring) (out : console) :
  split (unit_of ";") segment1 = category_ :: name :: quantity1 :: rest ->
  split (unit_of ";") segment2 = category_ :: name :: quantity2 :: rest ->
  exists p1 p2,
    run (parseProduct segment1) out = inr (p1, out)
    /\ run (parseProduct segment2) out = inr (p2, out)
    /\ isValid p1 = isValid p2
    /\ category p1 = category p2 /\ item p1 = item p2 /\ price p1 = price p2
    /\ events p1 = events p2 /\ evars p1 = evars p2.
Proof.
  intros H1 H2. exists (parsed segment1), (parsed segment2).
  split; [apply parseProduct_silent |]. split; [apply parseProduct_silent |].
  unfold parsed. cbn [isValid category item price events evars].
  rewrite H1, H2. cbn [nth_error length]. repeat split.
Qed.

Lemma quantity_is_not_validated_witness :
  exists p1 p2,
    run (parseProduct (js "Cat;Name;1;5.99")) [] = inr (p1, [])
    /\ run (parseProduct (js "Cat;Name;-7 pcs;5.99")) [] = inr (p2, [])
    /\ isValid p1 = isValid p2
    /\ category p1 = category p2 /\ item p1 = item p2 /\ price p1 = price p2
    /\ events p1 = events p2 /\ evars p1 = evars p2.
Proof.
  apply (quantity_is_not_validated (js "Cat;Name;1;5.99") (js "Cat;Name;-7 pcs;5.99")
           (js "Cat") (js "Name") (js "1") (js "-7 pcs") [js "5.99"] []);
    reflexivity.
Defined.
